(** * SafeScanX: the client-side scan orchestrator

    A shallow embedding of the scan pipeline of the SafeScanX front end:

    - [src/utils/fileUtils.ts]      [calculateSHA256], [readFileAsText]
    - [src/types/scan.ts]           [FileUpload], [ScanProgress], [CompleteScanData]
    - [src/components/FileUpload.tsx]  [validateFile], [handleFileSelect] (the upload gate)
    - [src/App.tsx]                 [handleFileSelect], [performScan]

    The browser primitives the code calls ([crypto.subtle.digest], [FileReader],
    [fetch], [Response.json], [import.meta.env], [Date]) are collaborators: the
    digest is written out after FIPS 180-4, the others are read from an explicit
    environment record, so that every run of the code is a function of its
    inputs.  A run yields, besides its result and the React state it leaves,
    the list of its observable effects (progress events, pacing delays,
    reads, console output, outbound requests) in program order. *)

From Stdlib Require Import ZArith NArith List String Ascii Bool Lia.
From Stdlib Require Import Init.Byte.
Import ListNotations.
Local Open Scope string_scope.
Local Open Scope Z_scope.
Local Set Warnings "-register-all".

(* ================================================================== *)
(** ** JavaScript values *)
(* ================================================================== *)

Module JS.

(** The values [response.json()] can resolve to (typed [any] in the source),
    plus [undefined] for a property that is missing.  Numbers are restricted to
    integers below 10^21 (where JavaScript starts printing exponents); the
    code never does arithmetic on a parsed number.  Objects are plain: none
    has a [toString] or [valueOf] entry of its own. *)
Inductive JsVal : Type :=
| JUndefined
| JNull
| JBool (b : bool)
| JNum (n : Z)
| JStr (s : string)
| JArr (xs : list JsVal)
| JObj (fields : list (string * JsVal)).

(** What a [throw] (or a rejected promise) carries: an [Error] instance with
    its [message], or any other value. *)
Inductive Thrown : Type :=
| ErrorObj (message : string)
| NonError (v : JsVal).

(** ToBoolean: the test behind [!x] and [x || y]. *)
Definition truthy (v : JsVal) : bool :=
  match v with
  | JUndefined | JNull => false
  | JBool b => b
  | JNum n => negb (n =? 0)
  | JStr s => negb (String.eqb s "")
  | JArr _ | JObj _ => true
  end.

(** [a || b] *)
Definition or_else (a b : JsVal) : JsVal := if truthy a then a else b.

Definition digit_char (d : Z) : ascii :=
  ascii_of_nat (Z.to_nat (if d <? 10 then 48 + d else 87 + d)).

(** Digits of a non-negative integer in the given radix, most significant
    first, lowercase ([Number.prototype.toString(radix)]).  [fuel] bounds the
    number of digits. *)
Fixpoint radix_digits (fuel : nat) (radix n : Z) : string :=
  match fuel with
  | O => ""
  | S k =>
      if n <? radix then String (digit_char n) ""
      else radix_digits k radix (n / radix) ++ String (digit_char (n mod radix)) ""
  end.

Definition Number_toString (radix n : Z) : string :=
  if n <? 0
  then "-" ++ radix_digits (S (Z.to_nat (Z.log2 (- n)))) radix (- n)
  else radix_digits (S (Z.to_nat (Z.log2 n))) radix n.

(** [Array.prototype.join(sep)] on an array of strings. *)
Definition join (sep : string) (parts : list string) : string :=
  String.concat sep parts.

(** ToString, as applied by [new Error(v)] to its argument.  An array is its
    elements joined by commas, with [null] and [undefined] elements rendered
    as the empty string; a plain object is ["[object Object]"]. *)
Fixpoint ToString (v : JsVal) : string :=
  match v with
  | JUndefined => "undefined"
  | JNull => "null"
  | JBool true => "true"
  | JBool false => "false"
  | JNum n => Number_toString 10 n
  | JStr s => s
  | JArr xs =>
      join ","
        (map (fun x => match x with
                       | JUndefined | JNull => ""
                       | _ => ToString x
                       end) xs)
  | JObj _ => "[object Object]"
  end.

(** [new Error(v)]: the message is ToString of the argument, and is empty
    when the argument is [undefined]. *)
Definition new_Error (v : JsVal) : Thrown :=
  match v with
  | JUndefined => ErrorObj ""
  | _ => ErrorObj (ToString v)
  end.

Fixpoint assoc (k : string) (fields : list (string * JsVal)) : JsVal :=
  match fields with
  | [] => JUndefined
  | (k', v) :: rest => if String.eqb k k' then v else assoc k rest
  end.

(** [v.k] for the own data properties the scan reads ([success], [error],
    [scanId], [result]): reading from [null] or [undefined] throws a
    [TypeError] whose text the engine chooses; a primitive or an array has no
    such property. *)
Definition get_prop (engine_text : string) (v : JsVal) (k : string)
  : Thrown + JsVal :=
  match v with
  | JUndefined | JNull => inl (ErrorObj engine_text)
  | JObj fields => inr (assoc k fields)
  | _ => inr JUndefined
  end.

(** [String.prototype.padStart(len, "0")] *)
Definition padStart0 (len : nat) (s : string) : string :=
  string_of_list_ascii (repeat "0"%char (len - String.length s)%nat) ++ s.

End JS.
Import JS.

(* ================================================================== *)
(** ** SHA-256 ([crypto.subtle.digest('SHA-256', buffer)]) *)
(* ================================================================== *)

Module Sha256.
Local Open Scope list_scope.

(** 32-bit words are [Z] in [0, 2^32); every operation writes out its
    wrap-around. *)
Definition wrap (x : Z) : Z := x mod 4294967296.
Definition add32 (x y : Z) : Z := wrap (x + y).
Definition not32 (x : Z) : Z := Z.lxor x 4294967295.
Definition rotr (n x : Z) : Z :=
  Z.lor (Z.shiftr x n) (wrap (Z.shiftl x (32 - n))).

Definition Ch (x y z : Z) : Z := Z.lxor (Z.land x y) (Z.land (not32 x) z).
Definition Maj (x y z : Z) : Z :=
  Z.lxor (Z.lxor (Z.land x y) (Z.land x z)) (Z.land y z).
Definition bsig0 (x : Z) : Z := Z.lxor (Z.lxor (rotr 2 x) (rotr 13 x)) (rotr 22 x).
Definition bsig1 (x : Z) : Z := Z.lxor (Z.lxor (rotr 6 x) (rotr 11 x)) (rotr 25 x).
Definition ssig0 (x : Z) : Z := Z.lxor (Z.lxor (rotr 7 x) (rotr 18 x)) (Z.shiftr x 3).
Definition ssig1 (x : Z) : Z := Z.lxor (Z.lxor (rotr 17 x) (rotr 19 x)) (Z.shiftr x 10).

(** Round constants. *)
Definition K : list Z :=
  [ 1116352408; 1899447441; 3049323471; 3921009573;
    961987163; 1508970993; 2453635748; 2870763221;
    3624381080; 310598401; 607225278; 1426881987;
    1925078388; 2162078206; 2614888103; 3248222580;
    3835390401; 4022224774; 264347078; 604807628;
    770255983; 1249150122; 1555081692; 1996064986;
    2554220882; 2821834349; 2952996808; 3210313671;
    3336571891; 3584528711; 113926993; 338241895;
    666307205; 773529912; 1294757372; 1396182291;
    1695183700; 1986661051; 2177026350; 2456956037;
    2730485921; 2820302411; 3259730800; 3345764771;
    3516065817; 3600352804; 4094571909; 275423344;
    430227734; 506948616; 659060556; 883997877;
    958139571; 1322822218; 1537002063; 1747873779;
    1955562222; 2024104815; 2227730452; 2361852424;
    2428436474; 2756734187; 3204031479; 3329325298 ].

(** The eight chaining words. *)
Record Chain : Type := mkChain {
  ha : Z; hb : Z; hc : Z; hd : Z; he : Z; hf : Z; hg : Z; hh : Z
}.

Definition initial : Chain :=
  mkChain 1779033703 3144134277 1013904242 2773480762
          1359893119 2600822924 528734635 1541459225.

(** Message schedule: [n] more words appended to the ones already there. *)
Fixpoint schedule (n : nat) (w : list Z) : list Z :=
  match n with
  | O => w
  | S n' =>
      let t := List.length w in
      let wt := add32 (add32 (ssig1 (nth (t - 2)%nat w 0)) (nth (t - 7)%nat w 0))
                      (add32 (ssig0 (nth (t - 15)%nat w 0)) (nth (t - 16)%nat w 0)) in
      schedule n' (w ++ [wt])
  end.

Definition round (v : Chain) (kw : Z * Z) : Chain :=
  let t1 := add32 (add32 (add32 (hh v) (bsig1 (he v)))
                         (add32 (Ch (he v) (hf v) (hg v)) (fst kw))) (snd kw) in
  let t2 := add32 (bsig0 (ha v)) (Maj (ha v) (hb v) (hc v)) in
  mkChain (add32 t1 t2) (ha v) (hb v) (hc v) (add32 (hd v) t1) (he v) (hf v) (hg v).

Definition compress (H : Chain) (block : list Z) : Chain :=
  let v := fold_left round (combine K (schedule 48 block)) H in
  mkChain (add32 (ha H) (ha v)) (add32 (hb H) (hb v))
          (add32 (hc H) (hc v)) (add32 (hd H) (hd v))
          (add32 (he H) (he v)) (add32 (hf H) (hf v))
          (add32 (hg H) (hg v)) (add32 (hh H) (hh v)).

(** Big-endian bytes of a word, and back. *)
Definition be_bytes (count : nat) (x : Z) : list Z :=
  map (fun i => (Z.shiftr x (8 * Z.of_nat i)) mod 256) (rev (seq 0 count)).

Fixpoint words (bytes : list Z) : list Z :=
  match bytes with
  | b0 :: b1 :: b2 :: b3 :: rest =>
      (b0 * 16777216 + b1 * 65536 + b2 * 256 + b3) :: words rest
  | _ => []
  end.

(** Padding: a one bit, zeros up to 56 mod 64 bytes, then the bit length as
    64 bits. *)
Definition pad (msg : list Z) : list Z :=
  let len := Z.of_nat (List.length msg) in
  msg ++ [128] ++ repeat 0 (Z.to_nat ((55 - len) mod 64))
      ++ be_bytes 8 ((8 * len) mod 18446744073709551616).

(** One block of sixteen words at a time. *)
Fixpoint blocks (H : Chain) (ws : list Z) : Chain :=
  match ws with
  | w0 :: w1 :: w2 :: w3 :: w4 :: w5 :: w6 :: w7 ::
    w8 :: w9 :: w10 :: w11 :: w12 :: w13 :: w14 :: w15 :: rest =>
      blocks (compress H [w0; w1; w2; w3; w4; w5; w6; w7;
                          w8; w9; w10; w11; w12; w13; w14; w15]) rest
  | _ => H
  end.

Definition byte_of_Z (z : Z) : byte :=
  match Byte.of_N (Z.to_N (z mod 256)) with
  | Some b => b
  | None => x00
  end.

Definition Z_of_byte (b : byte) : Z := Z.of_N (Byte.to_N b).

Definition word_bytes (x : Z) : list byte := map byte_of_Z (be_bytes 4 x).

(** The 32-byte digest of a buffer. *)
Definition digest (buffer : list byte) : list byte :=
  let H := blocks initial (words (pad (map Z_of_byte buffer))) in
  word_bytes (ha H) ++ word_bytes (hb H) ++ word_bytes (hc H) ++ word_bytes (hd H)
  ++ word_bytes (he H) ++ word_bytes (hf H) ++ word_bytes (hg H) ++ word_bytes (hh H).

End Sha256.

Definition hexByte (b : byte) : string :=
  padStart0 2 (Number_toString 16 (Sha256.Z_of_byte b)).

Definition hexOfBytes (bs : list byte) : string := join "" (map hexByte bs).

(* ================================================================== *)
(** ** Data model ([src/types/scan.ts]) and the browser's values *)
(* ================================================================== *)

(** A DOM [File]: its declared name and size, and what its two readers
    settle to ([file.arrayBuffer()], and [FileReader.readAsText] with its
    [onload] / [onerror] handlers). *)
Record File : Type := mkFile {
  name : string;
  size : Z;
  arrayBuffer : Thrown + list byte;
  readAsText : Thrown + string
}.

Record FileUpload : Type := mkFileUpload {
  file : File;
  sha256Hash : string;
  uploadProgress : Z
}.

(** The stage vocabulary of [ScanProgress].  The specification's names are
    intake = [uploading], fingerprinting = [hashing], reputation-check =
    [hash_check], heuristic, static-pattern = [static], behavioral, complete,
    failed = [error]. *)
Inductive Stage : Type :=
| uploading | hashing | hash_check | heuristic | static | behavioral
| complete | error.

Record ScanProgress : Type := mkScanProgress {
  stage : Stage;
  progress : Z;
  message : string
}.

Module Scan.
(** [CompleteScanData]; [scanId] and [result] are whatever the service sent. *)
Record CompleteScanData : Type := mkCompleteScanData {
  scanId : JsVal;
  fileName : string;
  fileSize : Z;
  sha256Hash : string;
  scanTimestamp : string;
  result : JsVal
}.
End Scan.

(** The argument of [fetch]; [body] is the object handed to
    [JSON.stringify]. *)
Record Request : Type := mkRequest {
  url : string;
  method : string;
  headers : list (string * string);
  body : JsVal
}.

Record Response : Type := mkResponse {
  ok : bool;
  statusText : string;
  json : Thrown + JsVal
}.

(** Everything the scan reads from outside. *)
Record Env : Type := mkEnv {
  VITE_SUPABASE_URL : option string;
  VITE_SUPABASE_ANON_KEY : option string;
  fetch : Request -> Thrown + Response;
  Date_toISOString : string;
  null_read_text : string
}.

Inductive AppState : Type := upload | scanning | results.

(** Observable effects, in program order. *)
Inductive Effect : Type :=
| SetScanProgress (p : ScanProgress)
| SetTimeout (ms : Z)
| ReadArrayBuffer (f : File)
| SubtleDigest (buffer : list byte)
| ReadFileAsText (f : File)
| Fetch (r : Request)
| ConsoleLog (text : string)
| ConsoleError (text : string)
| OnFileSelect (fu : FileUpload).

(** React state of [App] and of the [FileUpload] component. *)
Record World : Type := mkWorld {
  appState : AppState;
  currentFile : option FileUpload;
  scanProgress : ScanProgress;
  scanResults : option Scan.CompleteScanData;
  selectedFile : option File;
  isHashing : bool;
  uploadError : option string
}.

Definition initial_world : World :=
  mkWorld upload None (mkScanProgress uploading 0 "Preparing to scan...") None
          None false None.

(* ================================================================== *)
(** ** Control: state, effects, exceptions, try/catch/finally *)
(* ================================================================== *)

(** What a computation leaves behind: a value or a thrown exception, the
    state, and the effects it performed. *)
Record Run (A : Type) : Type := mkRun {
  outcome : Thrown + A;
  world : World;
  effects : list Effect
}.
Arguments mkRun {A} _ _ _.
Arguments outcome {A} _.
Arguments world {A} _.
Arguments effects {A} _.

Definition M (A : Type) : Type := World -> Run A.

Definition ret {A} (a : A) : M A := fun w => mkRun (inr a) w [].

Definition bind {A B} (m : M A) (k : A -> M B) : M B :=
  fun w => match m w with
           | mkRun (inl e) w' d => mkRun (inl e) w' d
           | mkRun (inr a) w' d =>
               match k a w' with
               | mkRun o w'' d' => mkRun o w'' (d ++ d')%list
               end
           end.

Definition throw {A} (e : Thrown) : M A := fun w => mkRun (inl e) w [].

(** [await] of a promise that has settled. *)
Definition await {A} (r : Thrown + A) : M A := fun w => mkRun r w [].

Definition try_catch {A} (body : M A) (handler : Thrown -> M A) : M A :=
  fun w => match body w with
           | mkRun (inl e) w' d =>
               match handler e w' with
               | mkRun o w'' d' => mkRun o w'' (d ++ d')%list
               end
           | mkRun (inr a) w' d => mkRun (inr a) w' d
           end.

Definition try_finally {A} (body : M A) (final : M unit) : M A :=
  fun w => match body w with
           | mkRun o w' d =>
               match final w' with
               | mkRun (inl e) w'' d' => mkRun (inl e) w'' (d ++ d')%list
               | mkRun (inr _) w'' d' => mkRun o w'' (d ++ d')%list
               end
           end.

(** A call to an [async] function whose promise the caller does not await:
    its effects happen, its rejection reaches nobody. *)
Definition detached {A} (m : M A) : M unit :=
  fun w => match m w with
           | mkRun _ w' d => mkRun (inr tt) w' d
           end.

Notation "x <- m ;; k" := (bind m (fun x => k))
  (at level 61, m at next level, right associativity).
Notation "m ;; k" := (bind m (fun _ => k))
  (at level 61, right associativity).

Definition emit (e : Effect) : M unit := fun w => mkRun (inr tt) w [e].

Definition setAppState (s : AppState) : M unit :=
  fun w => mkRun (inr tt)
             (mkWorld s (currentFile w) (scanProgress w) (scanResults w)
                      (selectedFile w) (isHashing w) (uploadError w)) [].

Definition setCurrentFile (f : option FileUpload) : M unit :=
  fun w => mkRun (inr tt)
             (mkWorld (appState w) f (scanProgress w) (scanResults w)
                      (selectedFile w) (isHashing w) (uploadError w)) [].

Definition setScanProgress (p : ScanProgress) : M unit :=
  fun w => mkRun (inr tt)
             (mkWorld (appState w) (currentFile w) p (scanResults w)
                      (selectedFile w) (isHashing w) (uploadError w))
             [SetScanProgress p].

Definition setScanResults (r : option Scan.CompleteScanData) : M unit :=
  fun w => mkRun (inr tt)
             (mkWorld (appState w) (currentFile w) (scanProgress w) r
                      (selectedFile w) (isHashing w) (uploadError w)) [].

Definition setSelectedFile (f : option File) : M unit :=
  fun w => mkRun (inr tt)
             (mkWorld (appState w) (currentFile w) (scanProgress w) (scanResults w)
                      f (isHashing w) (uploadError w)) [].

Definition setIsHashing (b : bool) : M unit :=
  fun w => mkRun (inr tt)
             (mkWorld (appState w) (currentFile w) (scanProgress w) (scanResults w)
                      (selectedFile w) b (uploadError w)) [].

Definition setError (e : option string) : M unit :=
  fun w => mkRun (inr tt)
             (mkWorld (appState w) (currentFile w) (scanProgress w) (scanResults w)
                      (selectedFile w) (isHashing w) e) [].

(** [await new Promise(resolve => setTimeout(resolve, ms))] *)
Definition pause (ms : Z) : M unit := emit (SetTimeout ms).

(* ================================================================== *)
(** ** [src/utils/fileUtils.ts] *)
(* ================================================================== *)

Definition calculateSHA256 (f : File) : M string :=
  emit (ReadArrayBuffer f) ;;
  buffer <- await (arrayBuffer f) ;;
  emit (SubtleDigest buffer) ;;
  let hashBuffer := Sha256.digest buffer in
  let hashArray := hashBuffer in
  let hashHex :=
    join "" (map (fun b => padStart0 2 (Number_toString 16 (Sha256.Z_of_byte b)))
                 hashArray) in
  ret hashHex.

Definition readFileAsText (f : File) : M string :=
  emit (ReadFileAsText f) ;;
  await (readAsText f).

(* ================================================================== *)
(** ** [src/App.tsx] *)
(* ================================================================== *)

Module App.

(** [!v] for an environment variable (a string or [undefined]). *)
Definition absent (v : option string) : bool :=
  match v with
  | None => true
  | Some s => String.eqb s ""
  end.

Definition equals (v : option string) (s : string) : bool :=
  match v with
  | None => false
  | Some s' => String.eqb s' s
  end.

(** A template-literal hole filled with an environment variable. *)
Definition interpolate (v : option string) : string :=
  match v with
  | None => "undefined"
  | Some s => s
  end.

Definition config_error_text : string :=
  "Supabase configuration missing or using placeholder values. Please update your .env file with actual Supabase URL and anon key.".

(** The object literal passed to [fetch] (lines 108-120). *)
Definition scan_request (env : Env) (fileUpload : FileUpload) (fileContent : string)
  : Request :=
  let supabaseUrl := VITE_SUPABASE_URL env in
  let supabaseAnonKey := VITE_SUPABASE_ANON_KEY env in
  let apiUrl := interpolate supabaseUrl ++ "/functions/v1/malware-scan" in
  mkRequest apiUrl "POST"
    [ ("Authorization", "Bearer " ++ interpolate supabaseAnonKey);
      ("Content-Type", "application/json") ]
    (JObj [ ("sha256Hash", JStr (sha256Hash fileUpload));
            ("fileName", JStr (name (file fileUpload)));
            ("fileSize", JNum (size (file fileUpload)));
            ("fileContent", JStr fileContent) ]).

(** The [try] block of [performScan]. *)
Definition performScan_try (env : Env) (fileUpload : FileUpload) : M unit :=
  (* Stage 1: Uploading (already done) *)
  setScanProgress (mkScanProgress uploading 10 "File uploaded successfully") ;;
  pause 500 ;;
  (* Stage 2: Hashing (already done during file selection) *)
  setScanProgress (mkScanProgress hashing 20 "SHA-256 hash generated") ;;
  pause 500 ;;
  (* Read file content for static analysis *)
  fileContent <-
    try_catch (readFileAsText (file fileUpload))
      (fun _ =>
         emit (ConsoleLog "Could not read file as text, continuing without content analysis") ;;
         ret "") ;;
  (* Stage 3: Hash Check *)
  setScanProgress
    (mkScanProgress hash_check 30 "Checking hash against threat databases...") ;;
  pause 1000 ;;
  (* Stage 4: Heuristic Analysis *)
  setScanProgress (mkScanProgress heuristic 50 "Performing heuristic analysis...") ;;
  pause 1000 ;;
  (* Stage 5: Static Analysis *)
  setScanProgress
    (mkScanProgress static 70 "Analyzing file content for malicious patterns...") ;;
  pause 1000 ;;
  (* Stage 6: Behavioral Analysis *)
  setScanProgress
    (mkScanProgress behavioral 85 "Querying behavioral analysis databases...") ;;
  pause 1500 ;;
  (* Call the Supabase Edge Function for comprehensive analysis *)
  let supabaseUrl := VITE_SUPABASE_URL env in
  let supabaseAnonKey := VITE_SUPABASE_ANON_KEY env in
  if absent supabaseUrl || equals supabaseUrl "https://your-project-ref.supabase.co"
     || absent supabaseAnonKey || equals supabaseAnonKey "your-anon-key-here"
  then throw (new_Error (JStr config_error_text))
  else
    let request := scan_request env fileUpload fileContent in
    emit (Fetch request) ;;
    response <- await (fetch env request) ;;
    if negb (ok response)
    then throw (new_Error (JStr ("Scan failed: " ++ statusText response)))
    else
      scanData <- await (json response) ;;
      success <- await (get_prop (null_read_text env) scanData "success") ;;
      if negb (truthy success)
      then
        err <- await (get_prop (null_read_text env) scanData "error") ;;
        throw (new_Error (or_else err (JStr "Scan failed")))
      else
        (* Stage 7: Complete *)
        setScanProgress (mkScanProgress complete 100 "Analysis complete!") ;;
        pause 500 ;;
        (* Prepare complete scan data *)
        scanId <- await (get_prop (null_read_text env) scanData "scanId") ;;
        result <- await (get_prop (null_read_text env) scanData "result") ;;
        let completeScanData :=
          Scan.mkCompleteScanData scanId (name (file fileUpload))
            (size (file fileUpload)) (sha256Hash fileUpload)
            (Date_toISOString env) result in
        setScanResults (Some completeScanData) ;;
        setAppState results.

(** The [catch] block of [performScan]. *)
Definition performScan_catch (thrown : Thrown) : M unit :=
  emit (ConsoleError "Scan error:") ;;
  setScanProgress
    (mkScanProgress error 0
       match thrown with
       | ErrorObj message => message
       | NonError _ => "An error occurred during scanning"
       end).

Definition performScan (env : Env) (fileUpload : FileUpload) : M unit :=
  try_catch (performScan_try env fileUpload) performScan_catch.

Definition handleFileSelect (env : Env) (fileUpload : FileUpload) : M unit :=
  setCurrentFile (Some fileUpload) ;;
  setAppState scanning ;;
  (* Start scanning process *)
  performScan env fileUpload.

End App.

(* ================================================================== *)
(** ** [src/components/FileUpload.tsx]: the upload gate *)
(* ================================================================== *)

Module UploadGate.

Section WithFormat.

(** [formatFileSize] of [fileUtils.ts] renders a byte count through
    floating-point logarithms and [toFixed]; the gate only splices its result
    into a message, so it stays a parameter here. *)
Variable formatFileSize : Z -> string.

(** The [onFileSelect] prop: an [async] function ([App.handleFileSelect]),
    which returns a promise and does not throw into its caller. *)
Variable onFileSelect : FileUpload -> M unit.

Definition MAX_FILE_SIZE : Z := 100 * 1024 * 1024. (* 100MB in bytes *)

Definition validateFile (f : File) : option string :=
  if size f >? MAX_FILE_SIZE
  then Some ("File size exceeds the maximum limit of " ++ formatFileSize MAX_FILE_SIZE)
  else None.

(** [if (validationError)]: neither [null] nor the empty string. *)
Definition is_set (v : option string) : bool :=
  match v with
  | None => false
  | Some s => negb (String.eqb s "")
  end.

(** [onFileSelect(fileUpload)] starts the scan and is not awaited, so in the
    browser the [finally] clause runs while the scan is pending.  It writes
    [isHashing] only, which the scan neither reads nor writes: letting the
    scan finish first yields the same events and the same final state. *)
Definition handleFileSelect (f : File) : M unit :=
  setError None ;;
  let validationError := validateFile f in
  if is_set validationError
  then setError validationError
  else
    setSelectedFile (Some f) ;;
    setIsHashing true ;;
    try_finally
      (try_catch
         (sha256Hash <- calculateSHA256 f ;;
          let fileUpload := mkFileUpload f sha256Hash 0 in
          emit (OnFileSelect fileUpload) ;;
          detached (onFileSelect fileUpload))
         (fun _ =>
            emit (ConsoleError "Error calculating file hash:") ;;
            setError (Some "Error processing file. Please try again.")))
      (setIsHashing false).

End WithFormat.

End UploadGate.

(** A file handed to the gate of a freshly mounted application: the gate's
    [onFileSelect] prop is [App.handleFileSelect]. *)
Definition submit (formatFileSize : Z -> string) (env : Env) (f : File) : M unit :=
  UploadGate.handleFileSelect formatFileSize (App.handleFileSelect env) f.

(* ================================================================== *)
(** ** Reading the effects of a run *)
(* ================================================================== *)

Fixpoint progress_events (t : list Effect) : list ScanProgress :=
  match t with
  | [] => []
  | SetScanProgress p :: rest => p :: progress_events rest
  | _ :: rest => progress_events rest
  end%list.

Fixpoint requests (t : list Effect) : list Request :=
  match t with
  | [] => []
  | Fetch r :: rest => r :: requests rest
  | _ :: rest => requests rest
  end%list.

Fixpoint digests (t : list Effect) : list (list byte) :=
  match t with
  | [] => []
  | SubtleDigest b :: rest => b :: digests rest
  | _ :: rest => digests rest
  end%list.

Fixpoint selections (t : list Effect) : list FileUpload :=
  match t with
  | [] => []
  | OnFileSelect fu :: rest => fu :: selections rest
  | _ :: rest => selections rest
  end%list.

Fixpoint nondecreasing (l : list Z) : bool :=
  match l with
  | a :: (b :: _) as rest => (a <=? b) && nondecreasing rest
  | _ => true
  end%list.

Definition is_lower_hex (c : ascii) : bool :=
  let n := nat_of_ascii c in
  ((48 <=? n) && (n <=? 57) || (97 <=? n) && (n <=? 102))%nat.

Fixpoint all_chars (p : ascii -> bool) (s : string) : bool :=
  match s with
  | EmptyString => true
  | String c rest => p c && all_chars p rest
  end.

(** [s.includes(needle)] *)
Fixpoint includes (needle s : string) : bool :=
  String.prefix needle s
  || match s with
     | EmptyString => false
     | String _ rest => includes needle rest
     end.

(* ================================================================== *)
(** ** Vocabulary for the statements *)
(* ================================================================== *)

(** What the sampler hands on: the text, or nothing when the read failed. *)
Definition sampled (f : File) : string :=
  match readAsText f with
  | inr s => s
  | inl _ => ""
  end.

(** The guard of line 102, negated. *)
Definition config_ok (env : Env) : bool :=
  negb (App.absent (VITE_SUPABASE_URL env)
        || App.equals (VITE_SUPABASE_URL env) "https://your-project-ref.supabase.co"
        || App.absent (VITE_SUPABASE_ANON_KEY env)
        || App.equals (VITE_SUPABASE_ANON_KEY env) "your-anon-key-here").

(** The six progress events that precede the remote call. *)
Definition pacing_events : list ScanProgress :=
  [ mkScanProgress uploading 10 "File uploaded successfully";
    mkScanProgress hashing 20 "SHA-256 hash generated";
    mkScanProgress hash_check 30 "Checking hash against threat databases...";
    mkScanProgress heuristic 50 "Performing heuristic analysis...";
    mkScanProgress static 70 "Analyzing file content for malicious patterns...";
    mkScanProgress behavioral 85 "Querying behavioral analysis databases..." ]%list.

Definition complete_event : ScanProgress :=
  mkScanProgress complete 100 "Analysis complete!".

Definition fallback_text : string := "An error occurred during scanning".

(** The text the [catch] block shows for a thrown value. *)
Definition shown_text (thrown : Thrown) : string :=
  match thrown with
  | ErrorObj m => m
  | NonError _ => fallback_text
  end.

Definition failed_event (thrown : Thrown) : ScanProgress :=
  mkScanProgress error 0 (shown_text thrown).

Definition stage_eqb (a b : Stage) : bool :=
  match a, b with
  | uploading, uploading | hashing, hashing | hash_check, hash_check
  | heuristic, heuristic | static, static | behavioral, behavioral
  | complete, complete | error, error => true
  | _, _ => false
  end.

(** How many events of a list are at a given stage. *)
Definition count_stage (s : Stage) (evs : list ScanProgress) : nat :=
  List.length (filter (fun p => stage_eqb (stage p) s) evs).

(** The one request a scan can send. *)
Definition the_request (env : Env) (fu : FileUpload) : Request :=
  App.scan_request env fu (sampled (file fu)).

(** The text of the failed event is not empty: what the specification asks of
    a run whose [try] block throws. *)
Definition failure_text_nonempty (env : Env) (fu : FileUpload) (w : World) : Prop :=
  (exists thrown, outcome (App.performScan_try env fu w) = inl thrown) ->
  message (scanProgress (world (App.performScan env fu w))) <> "".

(** The text of the failed event is the string [s], on a run that received
    the envelope [data] with [success: false] and [error: s]. *)
Definition service_text_shown (env : Env) (fu : FileUpload) (w : World)
    (resp : Response) (data : JsVal) (s : string) : Prop :=
  config_ok env = true ->
  fetch env (the_request env fu) = inr resp -> ok resp = true ->
  json resp = inr data ->
  get_prop (null_read_text env) data "success" = inr (JBool false) ->
  get_prop (null_read_text env) data "error" = inr (JStr s) ->
  message (scanProgress (world (App.performScan env fu w))) = s.

(** An environment variable that is missing, empty, or still the value of
    the distributed [.env] template. *)
Definition unconfigured (v : option string) (placeholder : string) : Prop :=
  v = None \/ v = Some "" \/ v = Some placeholder.

(* ================================================================== *)
(** ** Sample inputs *)
(* ================================================================== *)

Module Sample.

(** Twelve bytes of ASCII text. *)
Definition hello : File :=
  mkFile "hello.txt" 12 (inr (list_byte_of_string "hello world!"))
         (inr "hello world!").

(** The same bytes under another name. *)
Definition hello_copy : File :=
  mkFile "copy of hello.txt" 12 (inr (list_byte_of_string "hello world!"))
         (inr "hello world!").

(** A file whose text read fails ([reader.onerror] rejects with the event). *)
Definition binary : File :=
  mkFile "blob.bin" 4 (inr [x00; xff; x80; x7f]%list)
         (inl (NonError (JObj [("type", JStr "error")]%list))).

(** One byte over the limit. *)
Definition oversized : File :=
  mkFile "huge.iso" 104857601 (inr []%list) (inr "").

Definition hello_upload : FileUpload :=
  mkFileUpload hello
    "7509e5bda0c762d2bac7f90d758b5b2263fa01ccbc542ab5e3df163be08e6ca9" 0.

Definition binary_upload : FileUpload :=
  mkFileUpload binary (hexOfBytes (Sha256.digest [x00; xff; x80; x7f]%list)) 0.

Definition answering (r : Thrown + Response) : Env :=
  mkEnv (Some "https://abc.supabase.co") (Some "anon-key") (fun _ => r)
        "2025-06-23T14:33:36.000Z"
        "Cannot read properties of null (reading 'success')".

(** [{success: true, scanId: "abc", result: {...}}], the result echoing a
    fingerprint that is not the file's. *)
Definition safe_body : JsVal :=
  JObj [ ("success", JBool true); ("scanId", JStr "abc");
         ("result", JObj [ ("fileHashId", JStr "0000");
                           ("overallVerdict", JStr "safe");
                           ("threatScore", JNum 0) ]%list) ]%list.

Definition served : Env := answering (inr (mkResponse true "OK" (inr safe_body))).

Definition http500 : Env :=
  answering (inr (mkResponse false "Internal Server Error"
                    (inr (JObj [("success", JBool false)]%list)))).

Definition envelope (fields : list (string * JsVal)) : Env :=
  answering (inr (mkResponse true "OK" (inr (JObj fields)))).


(** [{success: false, error: ""}] *)
Definition blank_error : Env :=
  envelope [("success", JBool false); ("error", JStr "")]%list.

(** [{success: false, error: []}] *)
Definition empty_array_error : Env :=
  envelope [("success", JBool false); ("error", JArr []%list)]%list.

(** No [.env] file at all. *)
Definition unset : Env :=
  mkEnv None None (fun _ => inr (mkResponse true "OK" (inr safe_body)))
        "2025-06-23T14:33:36.000Z"
        "Cannot read properties of null (reading 'success')".

Definition MB100 (bytes : Z) : string := "100 MB".

End Sample.

(* ================================================================== *)
(** ** [src/App.tsx]: what is on screen, and the two buttons *)
(* ================================================================== *)

Module Shell.

Definition handleNewScan : M unit :=
  setCurrentFile None ;;
  setScanResults None ;;
  setScanProgress (mkScanProgress uploading 0 "Preparing to scan...") ;;
  setAppState upload.

Definition handleBackToScan : M unit :=
  setAppState upload.

(** The content of [<main>]: three conditional blocks, keyed on [appState]. *)
Inductive Screen : Type :=
| UploadScreen
| ProgressScreen (progress : ScanProgress) (fileName : string) (sha256Hash : string)
| ResultsScreen (scanData : Scan.CompleteScanData)
| NoScreen.

Definition main (w : World) : Screen :=
  match appState w with
  | upload => UploadScreen
  | scanning =>
      match currentFile w with
      | Some cf => ProgressScreen (scanProgress w) (name (file cf)) (sha256Hash cf)
      | None => NoScreen
      end
  | results =>
      match scanResults w with
      | Some r => ResultsScreen r
      | None => NoScreen
      end
  end.

(** The record belongs to the upload: same name, size and fingerprint. *)
Definition record_of (fu : FileUpload) (r : Scan.CompleteScanData) : Prop :=
  Scan.fileName r = name (file fu)
  /\ Scan.fileSize r = size (file fu)
  /\ Scan.sha256Hash r = sha256Hash fu.

End Shell.

(* ================================================================== *)
(** ** [performScan] between its [await]s *)
(* ================================================================== *)

Module Live.

(** While a scan waits at an [await] the page serves other requests.  A
    suspended scan is what it will do when resumed: a stretch of code up to
    its next [await], or to its end. *)
Inductive Task : Type :=
| Settled
| Awaiting (resume : World -> World * list Effect * Task).

Definition Turn : Type := World -> World * list Effect * Task.

(** One stretch of the [try] block: if it throws, the [catch] block runs at
    once and the scan is over; otherwise the scan waits at the next [await]. *)
Definition stretch {A : Type} (code : M A) (rest : A -> Task) : Turn :=
  fun w => match code w with
           | mkRun (inr a) w' d => (w', d, rest a)
           | mkRun (inl e) w' d =>
               match App.performScan_catch e w' with
               | mkRun _ w'' d' => (w'', (d ++ d')%list, Settled)
               end
           end.

(** [performScan], cut at its ten [await]s (lines 43, 52, 57, 69, 78, 87, 96,
    108, 126 and 139). *)
Definition performScan (env : Env) (fileUpload : FileUpload) : Turn :=
  stretch
    (setScanProgress (mkScanProgress uploading 10 "File uploaded successfully") ;;
     pause 500)
    (fun _ => Awaiting (stretch
    (setScanProgress (mkScanProgress hashing 20 "SHA-256 hash generated") ;;
     pause 500)
    (fun _ => Awaiting (stretch
    (emit (ReadFileAsText (file fileUpload)))
    (fun _ => Awaiting (stretch
    (fileContent <-
       try_catch (await (readAsText (file fileUpload)))
         (fun _ =>
            emit (ConsoleLog "Could not read file as text, continuing without content analysis") ;;
            ret "") ;;
     setScanProgress
       (mkScanProgress hash_check 30 "Checking hash against threat databases...") ;;
     pause 1000 ;;
     ret fileContent)
    (fun fileContent => Awaiting (stretch
    (setScanProgress (mkScanProgress heuristic 50 "Performing heuristic analysis...") ;;
     pause 1000)
    (fun _ => Awaiting (stretch
    (setScanProgress
       (mkScanProgress static 70 "Analyzing file content for malicious patterns...") ;;
     pause 1000)
    (fun _ => Awaiting (stretch
    (setScanProgress
       (mkScanProgress behavioral 85 "Querying behavioral analysis databases...") ;;
     pause 1500)
    (fun _ => Awaiting (stretch
    (let supabaseUrl := VITE_SUPABASE_URL env in
     let supabaseAnonKey := VITE_SUPABASE_ANON_KEY env in
     if App.absent supabaseUrl
        || App.equals supabaseUrl "https://your-project-ref.supabase.co"
        || App.absent supabaseAnonKey
        || App.equals supabaseAnonKey "your-anon-key-here"
     then throw (new_Error (JStr App.config_error_text))
     else emit (Fetch (App.scan_request env fileUpload fileContent)))
    (fun _ => Awaiting (stretch
    (response <- await (fetch env (App.scan_request env fileUpload fileContent)) ;;
     if negb (ok response)
     then throw (new_Error (JStr ("Scan failed: " ++ statusText response)))
     else ret response)
    (fun response => Awaiting (stretch
    (scanData <- await (json response) ;;
     success <- await (get_prop (null_read_text env) scanData "success") ;;
     if negb (truthy success)
     then
       err <- await (get_prop (null_read_text env) scanData "error") ;;
       throw (new_Error (or_else err (JStr "Scan failed")))
     else
       setScanProgress (mkScanProgress complete 100 "Analysis complete!") ;;
       pause 500 ;;
       ret scanData)
    (fun scanData => Awaiting (stretch
    (scanId <- await (get_prop (null_read_text env) scanData "scanId") ;;
     result <- await (get_prop (null_read_text env) scanData "result") ;;
     let completeScanData :=
       Scan.mkCompleteScanData scanId (name (file fileUpload))
         (size (file fileUpload)) (sha256Hash fileUpload)
         (Date_toISOString env) result in
     setScanResults (Some completeScanData) ;;
     setAppState results)
    (fun _ => Settled))))))))))))))))))))).

(** [App.handleFileSelect]: the two setters and the scan's first stretch run
    in the caller's turn. *)
Definition handleFileSelect (env : Env) (fileUpload : FileUpload) : Turn :=
  fun w => match (setCurrentFile (Some fileUpload) ;; setAppState scanning) w with
           | mkRun _ w' d =>
               match performScan env fileUpload w' with
               | (w'', d', task) => (w'', (d ++ d')%list, task)
               end
           end.

(** Resuming a scan again and again, with nothing in between. *)
Fixpoint to_the_end (task : Task) (w : World) : World * list Effect :=
  match task with
  | Settled => (w, []%list)
  | Awaiting resume =>
      match resume w with
      | (w', d, task') =>
          match to_the_end task' w' with
          | (w'', d') => (w'', (d ++ d')%list)
          end
      end
  end.

Definition uninterrupted (turn : Turn) (w : World) : World * list Effect :=
  match turn w with
  | (w', d, task) =>
      match to_the_end task w' with
      | (w'', d') => (w'', (d ++ d')%list)
      end
  end.

(** What the page serves: a file handed over by the upload component, the
    "new scan" button, the logo, or a suspended scan whose wait is over. *)
Inductive Event : Type :=
| Selected (fileUpload : FileUpload)
| NewScan
| BackToScan
| Resumed (which : nat).

Record Page : Type := mkPage {
  state : World;
  suspended : list Task
}.

Definition opened : Page := mkPage initial_world []%list.

Fixpoint replace_task (n : nat) (task : Task) (l : list Task) : list Task :=
  match l, n with
  | [], _ => []
  | _ :: rest, O => task :: rest
  | t :: rest, S n' => t :: replace_task n' task rest
  end%list.

Definition serve (env : Env) (ev : Event) (page : Page) : Page :=
  match ev with
  | Selected fileUpload =>
      match handleFileSelect env fileUpload (state page) with
      | (w, _, task) => mkPage w (suspended page ++ [task])%list
      end
  | NewScan => mkPage (world (Shell.handleNewScan (state page))) (suspended page)
  | BackToScan => mkPage (world (Shell.handleBackToScan (state page))) (suspended page)
  | Resumed which =>
      match nth_error (suspended page) which with
      | Some (Awaiting resume) =>
          match resume (state page) with
          | (w, _, task) => mkPage w (replace_task which task (suspended page))
          end
      | _ => page
      end
  end.

Fixpoint browse (env : Env) (events : list Event) (page : Page) : Page :=
  match events with
  | [] => page
  | ev :: rest => browse env rest (serve env ev page)
  end%list.

Fixpoint selected (events : list Event) : list FileUpload :=
  match events with
  | [] => []
  | Selected fu :: rest => fu :: selected rest
  | _ :: rest => selected rest
  end%list.

(** The state can be shown: the results view has a record, the scanning view
    has a current file, and a stored record is the record of one of the
    uploads [known]. *)
Definition sound (known : list FileUpload) (w : World) : Prop :=
  (appState w = results -> exists r, scanResults w = Some r)
  /\ (appState w = scanning -> exists fu, currentFile w = Some fu)
  /\ (forall r, scanResults w = Some r ->
        exists fu, In fu known /\ Shell.record_of fu r).

(** A suspended scan of [fu] that keeps the state sound whenever it is
    resumed, now and at each later [await]. *)
Inductive harmless (fu : FileUpload) : Task -> Prop :=
| harmless_settled : harmless fu Settled
| harmless_awaiting (resume : World -> World * list Effect * Task) :
    (forall known w, In fu known -> sound known w ->
                     sound known (fst (fst (resume w)))) ->
    (forall w, harmless fu (snd (resume w))) ->
    harmless fu (Awaiting resume).

(** The page can be shown and will stay so. *)
Definition steady (known : list FileUpload) (page : Page) : Prop :=
  sound known (state page)
  /\ Forall (fun task => exists fu, In fu known /\ harmless fu task) (suspended page).

End Live.

(* ================================================================== *)
(** ** The [ScanProgress] component: the list of stage rows *)
(* ================================================================== *)

Module ProgressView.

Inductive Icon : Type :=
| Shield | Hash | Search | FileText | Activity | CheckCircle | XCircle | Loader.

Record StageRow : Type := mkStageRow {
  id : Stage;
  label : string;
  icon : Icon
}.

Definition stages : list StageRow :=
  [ mkStageRow uploading "Uploading File" Shield;
    mkStageRow hashing "Generating Hash" Hash;
    mkStageRow hash_check "Hash Database Check" Search;
    mkStageRow heuristic "Heuristic Analysis" FileText;
    mkStageRow static "Static Analysis" FileText;
    mkStageRow behavioral "Behavioral Analysis" Activity;
    mkStageRow complete "Analysis Complete" CheckCircle ]%list.

(** [Array.prototype.findIndex]: the first position that satisfies the test,
    or -1. *)
Fixpoint findIndex {A : Type} (test : A -> bool) (l : list A) : Z :=
  match l with
  | [] => -1
  | x :: rest =>
      if test x then 0
      else let i := findIndex test rest in
           if i <? 0 then -1 else i + 1
  end%list.

Definition getCurrentStageIndex (progress : ScanProgress) : Z :=
  findIndex (fun row => stage_eqb (id row) (stage progress)) stages.

Definition isActive (progress : ScanProgress) (index : Z) : bool :=
  index =? getCurrentStageIndex progress.

Definition isCompleted (progress : ScanProgress) (index : Z) : bool :=
  (index <? getCurrentStageIndex progress) || stage_eqb (stage progress) complete.

Definition isError (progress : ScanProgress) (index : Z) : bool :=
  stage_eqb (stage progress) error && (index =? getCurrentStageIndex progress).

(** The colour classes of a row's badge and label. *)
Inductive Tone : Type := Red | Green | Blue | Gray.

Definition rowTone (progress : ScanProgress) (index : Z) : Tone :=
  if isError progress index then Red
  else if isCompleted progress index then Green
  else if isActive progress index then Blue
  else Gray.

Definition rowIcon (progress : ScanProgress) (row : StageRow) (index : Z) : Icon :=
  if isCompleted progress index && negb (isError progress index) then CheckCircle
  else if isError progress index then XCircle
  else if isActive progress index then Loader
  else icon row.

(** The icon beside the percentage in the header. *)
Definition headerIcon (progress : ScanProgress) : Icon :=
  if stage_eqb (stage progress) error then XCircle
  else if stage_eqb (stage progress) complete then CheckCircle
  else Loader.

(** [stages.map((stage, index) => ...)]: each row with its index. *)
Fixpoint indexed {A : Type} (from : Z) (l : list A) : list (Z * A) :=
  match l with
  | [] => []
  | x :: rest => (from, x) :: indexed (from + 1) rest
  end%list.

Definition tones (progress : ScanProgress) : list Tone :=
  map (fun ir => rowTone progress (fst ir)) (indexed 0 stages).

Definition icons (progress : ScanProgress) : list Icon :=
  map (fun ir => rowIcon progress (snd ir) (fst ir)) (indexed 0 stages).

(** How many rows are in the completed state. *)
Definition checked (progress : ScanProgress) : nat :=
  List.length (filter (fun ir => isCompleted progress (fst ir)) (indexed 0 stages)).

(** The red panel under the rows. *)
Definition errorPanel (progress : ScanProgress) : option string :=
  if stage_eqb (stage progress) error then Some (message progress) else None.

End ProgressView.

(* ================================================================== *)
(** ** [src/utils/fileUtils.ts]: icons and colours *)
(* ================================================================== *)

Module FileUtils.

(** [String.prototype.toLowerCase] on the letters A to Z.  JavaScript also
    maps letters outside ASCII, to letters outside ASCII; the keys looked up
    below are all ASCII, and so is a fingerprint. *)
Definition lower_char (c : ascii) : ascii :=
  let n := nat_of_ascii c in
  if ((65 <=? n) && (n <=? 90))%nat then ascii_of_nat (n + 32) else c.

Fixpoint toLowerCase (s : string) : string :=
  match s with
  | EmptyString => EmptyString
  | String c rest => String (lower_char c) (toLowerCase rest)
  end.

(** [s.split('.')]: the pieces between the dots; never an empty array. *)
Fixpoint split_dot (s : string) : list string :=
  match s with
  | EmptyString => [EmptyString]
  | String c rest =>
      if Ascii.eqb c "."%char then EmptyString :: split_dot rest
      else match split_dot rest with
           | piece :: pieces => String c piece :: pieces
           | [] => [String c EmptyString]
           end
  end%list.

(** [Array.prototype.pop]: the last element, [undefined] on an empty array. *)
Fixpoint pop (l : list string) : option string :=
  match l with
  | [] => None
  | [x] => Some x
  | _ :: rest => pop rest
  end%list.

(** What [obj[key] || fallback] evaluates to for an object literal with text
    values: a text, or, when [key] names a member every object inherits
    ([constructor], [toString], ...), that member. *)
Inductive Looked : Type :=
| Text (s : string)
| Builtin (key : string).

Fixpoint own (obj : list (string * string)) (key : string) : option string :=
  match obj with
  | [] => None
  | (k, v) :: rest => if String.eqb key k then Some v else own rest key
  end%list.

Section Lookup.

(** The names [Object.prototype] answers to; the engine's business. *)
Variable inherited : string -> bool.

Definition look (obj : list (string * string)) (key fallback : string) : Looked :=
  match own obj key with
  | Some v => if String.eqb v "" then Text fallback else Text v
  | None => if inherited key then Builtin key else Text fallback
  end.

Definition iconMap : list (string * string) :=
  [ (* Executables *)
    ("exe", "⚠️"); ("bat", "⚠️"); ("cmd", "⚠️"); ("scr", "⚠️"); ("msi", "⚠️");
    (* Scripts *)
    ("js", "📄"); ("py", "🐍"); ("sh", "📜"); ("ps1", "💻");
    (* Archives *)
    ("zip", "📦"); ("rar", "📦"); ("7z", "📦"); ("tar", "📦");
    (* Documents *)
    ("pdf", "📄"); ("doc", "📝"); ("docx", "📝"); ("txt", "📄");
    (* Images *)
    ("jpg", "🖼️"); ("jpeg", "🖼️"); ("png", "🖼️"); ("gif", "🖼️") ]%list.

Definition getFileIcon (fileName : string) : Looked :=
  let extension := option_map toLowerCase (pop (split_dot fileName)) in
  let key := match extension with
             | Some e => e
             | None => ""
             end in
  look iconMap key "📄".

Definition textColors : list (string * string) :=
  [ ("safe", "text-green-600"); ("suspicious", "text-yellow-600");
    ("malicious", "text-red-600"); ("critical", "text-red-800") ]%list.

Definition getThreatColor (verdict : string) : Looked :=
  look textColors verdict "text-gray-600".

Definition bgColors : list (string * string) :=
  [ ("safe", "bg-green-100"); ("suspicious", "bg-yellow-100");
    ("malicious", "bg-red-100"); ("critical", "bg-red-200") ]%list.

Definition getThreatBgColor (verdict : string) : Looked :=
  look bgColors verdict "bg-gray-100".

End Lookup.

(** The members of [Object.prototype] in today's browsers. *)
Definition Object_prototype (key : string) : bool :=
  existsb (String.eqb key)
    [ "constructor"; "__proto__"; "hasOwnProperty"; "isPrototypeOf";
      "propertyIsEnumerable"; "toLocaleString"; "toString"; "valueOf";
      "__defineGetter__"; "__defineSetter__"; "__lookupGetter__";
      "__lookupSetter__" ]%list.

End FileUtils.

(* ================================================================== *)
(** ** [src/components/ThreatIntelligence.tsx] *)
(* ================================================================== *)

Module Threats.

(** A row of [scan_results], as selected: verdict and score. *)
Record ResultRow : Type := mkResultRow {
  overall_verdict : string;
  threat_score : Z
}.

(** A row of [file_hashes] with its embedded results. *)
Record HashRow : Type := mkHashRow {
  row_id : string;
  sha256_hash : string;
  file_name : string;
  file_size : Z;
  last_seen : string;
  scan_count : Z;
  scan_results : option (list ResultRow)
}.

(** The [ThreatIntelligence] interface of [types/scan.ts]. *)
Record Threat : Type := mkThreat {
  id : string;
  sha256Hash : string;
  fileName : string;
  fileSize : Z;
  overallVerdict : string;
  threatScore : Z;
  lastSeen : string;
  scanCount : Z
}.

(** What the query resolves to. *)
Record Reply : Type := mkReply {
  data : option (list HashRow);
  error : option Thrown
}.

(** The component's state. *)
Record State : Type := mkState {
  threats : list Threat;
  loading : bool;
  searchTerm : string;
  filterVerdict : string
}.

Definition initial : State := mkState [] true "" "all".

(** [item.scan_results?.[0]] *)
Definition first_result (item : HashRow) : option ResultRow :=
  match scan_results item with
  | Some (r :: _) => Some r
  | _ => None
  end%list.

(** The arrow function of lines 43-52. *)
Definition toThreat (item : HashRow) : Threat :=
  mkThreat (row_id item) (sha256_hash item) (file_name item) (file_size item)
    match first_result item with
    | Some r => if String.eqb (overall_verdict r) "" then "unknown"
                else overall_verdict r
    | None => "unknown"
    end
    match first_result item with
    | Some r => if threat_score r =? 0 then 0 else threat_score r
    | None => 0
    end
    (last_seen item) (scan_count item).

(** [fetchThreatIntelligence], given what the awaited query settles to:
    the new state and what went to the console. *)
Definition fetchThreatIntelligence (settled : Thrown + Reply) (st : State)
  : State * list Effect :=
  let attempt : Thrown + list Threat :=
    match settled with
    | inl e => inl e
    | inr reply =>
        match error reply with
        | Some e => inl e                              (* if (error) throw error *)
        | None =>
            inr match data reply with
                | Some rows => map toThreat rows
                | None => []
                end
        end
    end in
  match attempt with
  | inr threatData =>
      (mkState threatData false (searchTerm st) (filterVerdict st), [])
  | inl _ =>
      (mkState (threats st) false (searchTerm st) (filterVerdict st),
       [ConsoleError "Error fetching threat intelligence:"])
  end%list.

Definition matchesSearch (st : State) (threat : Threat) : bool :=
  includes (FileUtils.toLowerCase (searchTerm st))
           (FileUtils.toLowerCase (fileName threat))
  || includes (FileUtils.toLowerCase (searchTerm st))
              (FileUtils.toLowerCase (sha256Hash threat)).

Definition matchesFilter (st : State) (threat : Threat) : bool :=
  String.eqb (filterVerdict st) "all"
  || String.eqb (overallVerdict threat) (filterVerdict st).

Definition filteredThreats (st : State) : list Threat :=
  filter (fun threat => matchesSearch st threat && matchesFilter st threat)
         (threats st).

(** The accumulator of the [reduce]: an object used as a table from verdict
    to count, its keys in insertion order. *)
Fixpoint get (acc : list (string * Z)) (key : string) : option Z :=
  match acc with
  | [] => None
  | (k, n) :: rest => if String.eqb key k then Some n else get rest key
  end%list.

Fixpoint put (acc : list (string * Z)) (key : string) (n : Z) : list (string * Z) :=
  match acc with
  | [] => [(key, n)]
  | (k, m) :: rest =>
      if String.eqb key k then (k, n) :: rest else (k, m) :: put rest key n
  end%list.

Section Stats.

Variable inherited : string -> bool.

(** One step of the [reduce]: [acc[v] = (acc[v] || 0) + 1].  When the verdict
    names an inherited member and has no entry yet, what is read is that
    member, not a number, and the table stops being a table of counts:
    [None]. *)
Definition count_one (acc : option (list (string * Z))) (threat : Threat)
  : option (list (string * Z)) :=
  match acc with
  | None => None
  | Some table =>
      let v := overallVerdict threat in
      match get table v with
      | Some n => Some (put table v ((if n =? 0 then 0 else n) + 1))
      | None => if inherited v then None else Some (put table v (0 + 1))
      end
  end.

Definition verdictStats (st : State) : option (list (string * Z)) :=
  fold_left count_one (threats st) (Some []%list).

End Stats.

(** How many threats carry a verdict. *)
Definition tally (verdict : string) (l : list Threat) : Z :=
  Z.of_nat (List.length (filter (fun t => String.eqb (overallVerdict t) verdict) l)).

Definition total (table : list (string * Z)) : Z :=
  fold_right (fun kv sum => snd kv + sum) 0 table.

(** The count shown on a verdict's card; 0 when there is no card. *)
Definition shown_count (table : list (string * Z)) (verdict : string) : Z :=
  match get table verdict with
  | Some n => n
  | None => 0
  end.

Definition has_dot (s : string) : bool :=
  existsb (Ascii.eqb "."%char) (list_ascii_of_string s).

End Threats.

(* ================================================================== *)
(** ** More ways to read a run *)
(* ================================================================== *)

(** The pacing delays of a run, added up, in milliseconds. *)
Fixpoint waited (t : list Effect) : Z :=
  match t with
  | [] => 0
  | SetTimeout ms :: rest => ms + waited rest
  | _ :: rest => waited rest
  end%list.

(** How often the file's text was read. *)
Fixpoint text_reads (t : list Effect) : nat :=
  match t with
  | [] => O
  | ReadFileAsText _ :: rest => S (text_reads rest)
  | _ :: rest => text_reads rest
  end%list.

(** What happened before the first request. *)
Fixpoint until_fetch (t : list Effect) : list Effect :=
  match t with
  | [] => []
  | Fetch _ :: _ => []
  | e :: rest => e :: until_fetch rest
  end%list.

(** What went to the console. *)
Fixpoint console (t : list Effect) : list string :=
  match t with
  | [] => []
  | ConsoleLog s :: rest => s :: console rest
  | ConsoleError s :: rest => s :: console rest
  | _ :: rest => console rest
  end%list.

(** Reading a fingerprint back: the value of a hexadecimal digit, and the
    bytes of a string of digit pairs. *)
Definition hex_value (c : ascii) : N :=
  let n := N_of_ascii c in
  (if n <? 58 then n - 48 else n - 87)%N.

Fixpoint unhex (s : string) : list byte :=
  match s with
  | String hi (String lo rest) =>
      Sha256.byte_of_Z (Z.of_N (16 * hex_value hi + hex_value lo)) :: unhex rest
  | _ => []
  end%list.

(* ================================================================== *)
(** ** What is drawn, and what can be printed *)
(* ================================================================== *)

(** The rows drawn green, and the rows drawn with the check-mark icon (the
    last row's own icon is the check mark). *)
Definition green_rows (progress : ScanProgress) : nat :=
  List.length
    (filter (fun t => match t with ProgressView.Green => true | _ => false end)
            (ProgressView.tones progress)).

Definition check_marks (progress : ScanProgress) : nat :=
  List.length
    (filter (fun i => match i with ProgressView.CheckCircle => true | _ => false end)
            (ProgressView.icons progress)).

Fixpoint has_key (key : string) (fields : list (string * JsVal)) : bool :=
  match fields with
  | [] => false
  | (k, _) :: rest => String.eqb key k || has_key key rest
  end%list.

(** The values on which [ToString] above is JavaScript's: integers a double
    holds exactly (which print as their decimal digits), objects without a
    [toString] entry of their own (with one, the conversion throws a
    [TypeError]), and arrays of such values. *)
Fixpoint printable (v : JsVal) : bool :=
  match v with
  | JNum n => Z.abs n <=? 9007199254740991
  | JArr xs => forallb printable xs
  | JObj fields => negb (has_key "toString" fields)
  | _ => true
  end.

(* ================================================================== *)
(** ** Test vectors *)
(* ================================================================== *)

Example sha_abc :
  hexOfBytes (Sha256.digest (list_byte_of_string "abc"))
  = "ba7816bf8f01cfea414140de5dae2223b00361a396177a9cb410ff61f20015ad".
Proof. vm_compute. reflexivity. Qed.

Example sha_hello :
  hexOfBytes (Sha256.digest (list_byte_of_string "hello world!"))
  = "7509e5bda0c762d2bac7f90d758b5b2263fa01ccbc542ab5e3df163be08e6ca9".
Proof. vm_compute. reflexivity. Qed.

Example sha_empty :
  hexOfBytes (Sha256.digest [])
  = "e3b0c44298fc1c149afbf4c8996fb92427ae41e4649b934ca495991b7852b855".
Proof. vm_compute. reflexivity. Qed.

Example sha_a56 :
  hexOfBytes (Sha256.digest (repeat "a"%byte 56))
  = "b35439a4ac6f0948b6d6f9e3c6af0f5f590ce20f1bde7090ef7970686ec6738a".
Proof. vm_compute. reflexivity. Qed.

Example tostring_ex :
  ToString (JArr [JNum 12; JNull; JStr "a"; JArr []; JNum (-305)]) = "12,,a,,-305"
  /\ Number_toString 16 255 = "ff" /\ Number_toString 10 0 = "0"
  /\ Number_toString 10 1000 = "1000" /\ hexByte "010"%byte = "0a".
Proof. vm_compute. repeat split. Qed.

(* ================================================================== *)
(** ** Running the pipeline *)
(* ================================================================== *)

(** Symbolic execution: unfold the control operators and the state setters,
    call by value, so that each state is reduced before it is passed on. *)
Ltac crunch :=
  cbv beta iota zeta delta
    [submit UploadGate.handleFileSelect App.handleFileSelect
     App.performScan App.performScan_try App.performScan_catch
     calculateSHA256 readFileAsText try_catch try_finally detached
     bind ret throw await pause emit setScanProgress setScanResults
     setAppState setCurrentFile setSelectedFile setIsHashing setError
     appState currentFile scanProgress scanResults
     selectedFile isHashing uploadError outcome world effects app
     new_Error ToString failed_event shown_text complete_event].

Ltac crunch_in H :=
  cbv beta iota zeta delta
    [submit UploadGate.handleFileSelect App.handleFileSelect
     App.performScan App.performScan_try App.performScan_catch
     calculateSHA256 readFileAsText try_catch try_finally detached
     bind ret throw await pause emit setScanProgress setScanResults
     setAppState setCurrentFile setSelectedFile setIsHashing setError
     appState currentFile scanProgress scanResults
     selectedFile isHashing uploadError outcome world effects app
     new_Error ToString failed_event shown_text complete_event] in H.

(** Reading a property off a value that already yielded one cannot throw. *)
Lemma get_prop_twice txt v k k' x :
  get_prop txt v k = inr x -> exists y, get_prop txt v k' = inr y.
Proof.
  destruct v; simpl; intros H; try discriminate; eauto.
Qed.

(** The guard of the remote call, as the runs below meet it. *)
Lemma config_guard env :
  App.absent (VITE_SUPABASE_URL env)
  || App.equals (VITE_SUPABASE_URL env) "https://your-project-ref.supabase.co"
  || App.absent (VITE_SUPABASE_ANON_KEY env)
  || App.equals (VITE_SUPABASE_ANON_KEY env) "your-anon-key-here"
  = negb (config_ok env).
Proof. unfold config_ok. now rewrite negb_involutive. Qed.

(** Every run of [performScan] ends in one of two ways.  Either the [try]
    block returns: the seven events were emitted, the record is stored and the
    application shows the results.  Or it throws: the six pacing events are
    followed by the failed event, and neither the record nor the application
    state is touched.  In both cases the only request, if any, is the one of
    line 108, and the [catch] block lets nothing escape. *)
Lemma performScan_run env fu w :
  let run := App.performScan env fu w in
  let sent := if config_ok env
              then [the_request env fu]%list
              else []%list in
  outcome run = inr tt
  /\ requests (effects run) = sent
  /\ digests (effects run) = []%list
  /\ selections (effects run) = []%list
  /\ currentFile (world run) = currentFile w
  /\ ((exists scanId result,
          outcome (App.performScan_try env fu w) = inr tt
          /\ progress_events (effects run) = (pacing_events ++ [complete_event])%list
          /\ scanProgress (world run) = complete_event
          /\ scanResults (world run) =
               Some (Scan.mkCompleteScanData scanId (name (file fu)) (size (file fu))
                       (sha256Hash fu) (Date_toISOString env) result)
          /\ appState (world run) = results)
      \/ (exists thrown,
          outcome (App.performScan_try env fu w) = inl thrown
          /\ progress_events (effects run) = (pacing_events ++ [failed_event thrown])%list
          /\ scanProgress (world run) = failed_event thrown
          /\ scanResults (world run) = scanResults w
          /\ appState (world run) = appState w)).
Proof.
  destruct w as [a c p r s h u].
  unfold App.performScan, try_catch, the_request, sampled.
  remember (App.performScan_try env fu (mkWorld a c p r s h u)) as body eqn:Hbody.
  crunch_in Hbody. rewrite config_guard in Hbody.
  destruct (readAsText (file fu)) as [e|text]; crunch_in Hbody;
  (destruct (config_ok env); cbn [negb] in Hbody; crunch_in Hbody;
   [ match type of Hbody with context [fetch env ?q] =>
       destruct (fetch env q) as [e1|resp] end;
     crunch_in Hbody;
     [ | destruct (ok resp); cbn [negb] in Hbody; crunch_in Hbody;
         [ destruct (json resp) as [e2|data]; crunch_in Hbody;
           [ | destruct (get_prop (null_read_text env) data "success") as [e3|flag] eqn:Hs;
               crunch_in Hbody;
               [ | destruct (truthy flag); cbn [negb] in Hbody; crunch_in Hbody;
                   [ destruct (get_prop_twice _ _ _ "scanId" _ Hs) as [sid Hsid];
                     destruct (get_prop_twice _ _ _ "result" _ Hs) as [res Hres];
                     rewrite Hsid in Hbody; crunch_in Hbody;
                     rewrite Hres in Hbody; crunch_in Hbody
                   | destruct (get_prop_twice _ _ _ "error" _ Hs) as [err Herr];
                     rewrite Herr in Hbody; crunch_in Hbody ] ] ]
         | ] ]
   | ]);
  subst body; crunch;
  cbn [requests digests selections progress_events];
  do 5 (split; [reflexivity|]);
  try (right; eexists; repeat split; reflexivity);
  try (left; do 2 eexists; repeat split; reflexivity).
Qed.

(** What the [try] block throws, case by case. *)
Section TryOutcome.

Variables (env : Env) (fu : FileUpload) (w : World).

Ltac enter :=
  unfold the_request, sampled in *; destruct w as [a c p r s h u];
  crunch; rewrite config_guard;
  destruct (readAsText (file fu)) as [?|?]; crunch.

Lemma try_unconfigured :
  config_ok env = false ->
  outcome (App.performScan_try env fu w) = inl (ErrorObj App.config_error_text).
Proof.
  intros Hc. enter; rewrite Hc; reflexivity.
Qed.

Lemma try_fetch_rejects e :
  config_ok env = true -> fetch env (the_request env fu) = inl e ->
  outcome (App.performScan_try env fu w) = inl e.
Proof.
  intros Hc Hf. enter; rewrite Hc; cbn [negb]; crunch; rewrite Hf; reflexivity.
Qed.

Lemma try_bad_status resp :
  config_ok env = true -> fetch env (the_request env fu) = inr resp -> ok resp = false ->
  outcome (App.performScan_try env fu w)
  = inl (ErrorObj ("Scan failed: " ++ statusText resp)).
Proof.
  intros Hc Hf Hok.
  enter; rewrite Hc; cbn [negb]; crunch; rewrite Hf; crunch; rewrite Hok;
    reflexivity.
Qed.

Lemma try_envelope_refused resp data flag err :
  config_ok env = true -> fetch env (the_request env fu) = inr resp -> ok resp = true ->
  json resp = inr data ->
  get_prop (null_read_text env) data "success" = inr flag -> truthy flag = false ->
  get_prop (null_read_text env) data "error" = inr err ->
  outcome (App.performScan_try env fu w)
  = inl (new_Error (or_else err (JStr "Scan failed"))).
Proof.
  intros Hc Hf Hok Hj Hs Ht He.
  enter; rewrite Hc; cbn [negb]; crunch; rewrite Hf; crunch; rewrite Hok;
    cbn [negb]; crunch; rewrite Hj; crunch; rewrite Hs; crunch; rewrite Ht;
    cbn [negb]; crunch; rewrite He; reflexivity.
Qed.

Lemma try_accepted resp data flag :
  config_ok env = true -> fetch env (the_request env fu) = inr resp -> ok resp = true ->
  json resp = inr data ->
  get_prop (null_read_text env) data "success" = inr flag -> truthy flag = true ->
  outcome (App.performScan_try env fu w) = inr tt.
Proof.
  intros Hc Hf Hok Hj Hs Ht.
  destruct (get_prop_twice _ _ _ "scanId" _ Hs) as [sid Hsid].
  destruct (get_prop_twice _ _ _ "result" _ Hs) as [res Hres].
  enter; rewrite Hc; cbn [negb]; crunch; rewrite Hf; crunch; rewrite Hok;
    cbn [negb]; crunch; rewrite Hj; crunch; rewrite Hs; crunch; rewrite Ht;
    cbn [negb]; crunch; rewrite Hsid; crunch; rewrite Hres; reflexivity.
Qed.

End TryOutcome.

(** The stage of the last event tells the two endings apart. *)
Lemma completed_iff_returned env fu w :
  stage (scanProgress (world (App.performScan env fu w))) = complete
  <-> outcome (App.performScan_try env fu w) = inr tt.
Proof.
  destruct (performScan_run env fu w)
    as (_ & _ & _ & _ & _ & [(sid & res & Ho & _ & Hp & _) | (t & Ho & _ & Hp & _)]);
    rewrite Hp, Ho; split; intros H; try reflexivity; discriminate H.
Qed.

Lemma failed_iff_thrown env fu w :
  stage (scanProgress (world (App.performScan env fu w))) = error
  <-> exists thrown, outcome (App.performScan_try env fu w) = inl thrown.
Proof.
  destruct (performScan_run env fu w)
    as (_ & _ & _ & _ & _ & [(sid & res & Ho & _ & Hp & _) | (t & Ho & _ & Hp & _)]);
    rewrite Hp, Ho; split; intros H; try reflexivity;
    try discriminate H; eauto.
  destruct H as [x H]. discriminate H.
Qed.

(* ================================================================== *)
(** ** The stage sequence *)
(* ================================================================== *)

(** C1.  A scan that ends in the [complete] stage has emitted exactly the
    stages uploading, hashing, hash-check, heuristic, static, behavioral,
    complete (the specification's intake, fingerprinting, reputation-check,
    heuristic, static-pattern, behavioral, complete), in that order and
    without repetition; its percentages are 10, 20, 30, 50, 70, 85, 100: they
    never decrease and end at 100. *)
Theorem success_stage_sequence env fu w :
  stage (scanProgress (world (App.performScan env fu w))) = complete ->
  let evs := progress_events (effects (App.performScan env fu w)) in
  map stage evs
  = [uploading; hashing; hash_check; heuristic; static; behavioral; complete]%list
  /\ NoDup (map stage evs)
  /\ map progress evs = [10; 20; 30; 50; 70; 85; 100]%list
  /\ nondecreasing (map progress evs) = true
  /\ last (map progress evs) 0 = 100.
Proof.
  intros Hdone evs. subst evs.
  destruct (performScan_run env fu w)
    as (_ & _ & _ & _ & _ & [(sid & res & _ & Hev & _) | (t & _ & _ & Hp & _)]).
  - rewrite Hev. cbn.
    repeat split.
    repeat (constructor; [cbn; intuition discriminate|]). constructor.
  - rewrite Hp in Hdone. discriminate Hdone.
Qed.

Lemma success_stage_sequence_witness :
  stage (scanProgress (world
           (App.performScan Sample.served Sample.hello_upload initial_world)))
  = complete
  /\ map stage (progress_events (effects
           (App.performScan Sample.served Sample.hello_upload initial_world)))
     = [uploading; hashing; hash_check; heuristic; static; behavioral; complete]%list.
Proof.
  split.
  - vm_compute. reflexivity.
  - apply (success_stage_sequence Sample.served Sample.hello_upload initial_world).
    vm_compute. reflexivity.
Defined.

(* ================================================================== *)
(** ** The fingerprint *)
(* ================================================================== *)

Lemma string_length_append (s t : string) :
  String.length (s ++ t) = (String.length s + String.length t)%nat.
Proof. induction s as [|c s IH]; simpl; [reflexivity | now rewrite IH]. Qed.

Lemma all_chars_append p (s t : string) :
  all_chars p (s ++ t) = all_chars p s && all_chars p t.
Proof.
  induction s as [|c s IH]; simpl; [reflexivity|].
  now rewrite IH, andb_assoc.
Qed.

(** Joining two-character pieces without a separator. *)
Lemma join_pairs p (parts : list string) :
  Forall (fun s => String.length s = 2%nat /\ all_chars p s = true) parts ->
  String.length (join "" parts) = (2 * List.length parts)%nat
  /\ all_chars p (join "" parts) = true.
Proof.
  unfold join.
  induction 1 as [|s rest [Hlen Hp] Hrest [IHlen IHp]]; [split; reflexivity|].
  destruct rest as [|s' rest'].
  - simpl. split; [rewrite Hlen; reflexivity | exact Hp].
  - change (String.concat "" (s :: s' :: rest'))
      with (s ++ "" ++ String.concat "" (s' :: rest')).
    change ("" ++ String.concat "" (s' :: rest'))
      with (String.concat "" (s' :: rest')).
    rewrite string_length_append, all_chars_append, IHlen, IHp, Hlen, Hp.
    split; [simpl; lia | reflexivity].
Qed.

(** Padding fills the last block: no byte of the message is left outside a
    block of 64. *)
Lemma pad_fills_blocks (msg : list Z) :
  Z.of_nat (List.length (Sha256.pad msg)) mod 64 = 0.
Proof.
  unfold Sha256.pad, Sha256.be_bytes.
  rewrite !length_app, repeat_length, length_map, length_rev, length_seq.
  cbn [List.length].
  set (n := Z.of_nat (List.length msg)).
  assert (Hk : 0 <= (55 - n) mod 64 < 64) by (apply Z.mod_pos_bound; lia).
  replace (Z.of_nat (List.length msg + (1 + (Z.to_nat ((55 - n) mod 64) + 8))))
    with ((n + 9) + (55 - n) mod 64) by (subst n; lia).
  rewrite Z.add_mod_idemp_r by lia.
  replace (n + 9 + (55 - n)) with (1 * 64) by lia.
  apply Z.mod_mul. lia.
Qed.

(** A byte renders as two lowercase hexadecimal digits. *)
Lemma hexByte_shape (b : byte) :
  String.length (hexByte b) = 2%nat /\ all_chars is_lower_hex (hexByte b) = true.
Proof. destruct b; vm_compute; split; reflexivity. Qed.

Lemma digest_length (buffer : list byte) :
  List.length (Sha256.digest buffer) = 32%nat.
Proof. reflexivity. Qed.

Lemma hexOfBytes_shape (bs : list byte) :
  String.length (hexOfBytes bs) = (2 * List.length bs)%nat
  /\ all_chars is_lower_hex (hexOfBytes bs) = true.
Proof.
  unfold hexOfBytes.
  destruct (join_pairs is_lower_hex (map hexByte bs)) as [Hl Hc].
  - apply Forall_forall. intros s Hin.
    apply in_map_iff in Hin. destruct Hin as (b & <- & _).
    apply hexByte_shape.
  - rewrite Hl, length_map. split; [reflexivity | exact Hc].
Qed.

Lemma calculateSHA256_run f buffer w :
  arrayBuffer f = inr buffer ->
  calculateSHA256 f w
  = mkRun (inr (hexOfBytes (Sha256.digest buffer))) w
          [ReadArrayBuffer f; SubtleDigest buffer]%list.
Proof.
  intros Hb. crunch. rewrite Hb. reflexivity.
Qed.

(** C2.  Fingerprinting is a function of the bytes alone: two files with the
    same buffer, hashed in any state, give the same string; that string is the
    hexadecimal rendering of the SHA-256 digest, 64 characters long, each a
    digit or a letter from a to f. *)
Theorem fingerprint_deterministic_hex (B : list byte) f1 f2 w1 w2 :
  arrayBuffer f1 = inr B -> arrayBuffer f2 = inr B ->
  exists h,
    outcome (calculateSHA256 f1 w1) = inr h
    /\ outcome (calculateSHA256 f2 w2) = inr h
    /\ h = hexOfBytes (Sha256.digest B)
    /\ String.length h = 64%nat
    /\ all_chars is_lower_hex h = true.
Proof.
  intros H1 H2. exists (hexOfBytes (Sha256.digest B)).
  rewrite (calculateSHA256_run _ _ _ H1), (calculateSHA256_run _ _ _ H2).
  destruct (hexOfBytes_shape (Sha256.digest B)) as [Hl Hc].
  rewrite digest_length in Hl.
  repeat split; assumption.
Qed.

Lemma fingerprint_deterministic_hex_witness :
  exists h,
    outcome (calculateSHA256 Sample.hello initial_world) = inr h
    /\ outcome (calculateSHA256 Sample.hello_copy initial_world) = inr h
    /\ h = hexOfBytes (Sha256.digest (list_byte_of_string "hello world!"))
    /\ String.length h = 64%nat
    /\ all_chars is_lower_hex h = true.
Proof.
  apply (fingerprint_deterministic_hex (list_byte_of_string "hello world!")
           Sample.hello Sample.hello_copy initial_world initial_world);
    reflexivity.
Defined.

(* ================================================================== *)
(** ** Failure *)
(* ================================================================== *)

(** C3, as stated, fails.  The service answers 200 with
    [{success: false, error: []}]: the array is truthy, so line 129 throws
    [new Error([])], whose message is the empty string, and the [catch] block
    shows that message. *)
Lemma failure_text_can_be_empty :
  ~ failure_text_nonempty Sample.empty_array_error Sample.hello_upload initial_world.
Proof.
  unfold failure_text_nonempty. intros H.
  apply H; [eexists|]; vm_compute; reflexivity.
Qed.

(** The fallback text is for thrown values that are not [Error]s; an [Error]
    thrown without a message is shown as it is.  Here [fetch] rejects with
    [new TypeError()]. *)
Lemma messageless_error_gets_no_fallback :
  scanProgress (world
    (App.performScan (Sample.answering (inl (ErrorObj ""))) Sample.hello_upload
       initial_world))
  = mkScanProgress error 0 "".
Proof. vm_compute. reflexivity. Qed.

(** C3, amended.  When the [try] block of [performScan] throws, the run
    itself still returns; its progress events are the six pacing events
    followed by one event at stage [error], which is the last event and the
    only one at that stage; that event has progress 0, and its message is the
    thrown [Error]'s message, or the fallback text when the thrown value is
    not an [Error].  The message is not empty unless an [Error] with an empty
    message was thrown. *)
Theorem failure_single_terminal_event env fu w thrown :
  outcome (App.performScan_try env fu w) = inl thrown ->
  let run := App.performScan env fu w in
  let evs := progress_events (effects run) in
  let failed := mkScanProgress error 0 (shown_text thrown) in
  outcome run = inr tt
  /\ evs = (pacing_events ++ [failed])%list
  /\ count_stage error evs = 1%nat
  /\ last evs complete_event = failed
  /\ scanProgress (world run) = failed
  /\ (forall v, thrown = NonError v -> message failed = fallback_text)
  /\ (forall m, thrown = ErrorObj m -> message failed = m)
  /\ (thrown <> ErrorObj "" -> message failed <> "").
Proof.
  intros Hthrown run evs failed. subst run evs failed.
  destruct (performScan_run env fu w)
    as (Hret & _ & _ & _ & _ &
        [(sid & res & Ho & _) | (t & Ho & Hev & Hp & _)]).
  - rewrite Ho in Hthrown. discriminate Hthrown.
  - rewrite Ho in Hthrown. injection Hthrown as ->.
    rewrite Hev, Hp. unfold failed_event.
    repeat split; try assumption.
    + intros v ->. reflexivity.
    + intros m ->. reflexivity.
    + destruct thrown as [m|v]; cbn.
      * intros Hne ->. now apply Hne.
      * intros _. discriminate.
Qed.

Lemma failure_single_terminal_event_witness :
  outcome (App.performScan_try Sample.http500 Sample.hello_upload initial_world)
  = inl (ErrorObj "Scan failed: Internal Server Error")
  /\ progress_events (effects
       (App.performScan Sample.http500 Sample.hello_upload initial_world))
     = (pacing_events
          ++ [mkScanProgress error 0 "Scan failed: Internal Server Error"])%list.
Proof.
  split.
  - vm_compute. reflexivity.
  - apply (failure_single_terminal_event Sample.http500 Sample.hello_upload
             initial_world (ErrorObj "Scan failed: Internal Server Error")).
    vm_compute. reflexivity.
Defined.

(** A fingerprint that cannot be computed is the gate's failure, not the
    scan's: the gate reports it and no scan starts, whatever the callback. *)
Lemma hash_failure_starts_no_scan fmt onFileSelect f w e :
  size f <= UploadGate.MAX_FILE_SIZE -> arrayBuffer f = inl e ->
  let run := UploadGate.handleFileSelect fmt onFileSelect f w in
  outcome run = inr tt
  /\ effects run = [ReadArrayBuffer f; ConsoleError "Error calculating file hash:"]%list
  /\ uploadError (world run) = Some "Error processing file. Please try again."
  /\ scanProgress (world run) = scanProgress w
  /\ appState (world run) = appState w.
Proof.
  intros Hsz Hb. destruct w as [a c p r s h u].
  crunch. unfold UploadGate.validateFile.
  replace (size f >? UploadGate.MAX_FILE_SIZE) with false
    by (symmetry; rewrite Z.gtb_ltb; apply Z.ltb_ge; exact Hsz).
  cbn [UploadGate.is_set]. crunch. rewrite Hb. crunch.
  repeat split.
Qed.

(* ================================================================== *)
(** ** Configuration *)
(* ================================================================== *)

Lemma unconfigured_not_ok env :
  unconfigured (VITE_SUPABASE_URL env) "https://your-project-ref.supabase.co"
  \/ unconfigured (VITE_SUPABASE_ANON_KEY env) "your-anon-key-here" ->
  config_ok env = false.
Proof.
  unfold config_ok, unconfigured.
  intros [[H | [H | H]] | [H | [H | H]]]; rewrite H;
    cbn [App.absent App.equals];
    rewrite ?String.eqb_refl, ?orb_true_r, ?orb_true_l; reflexivity.
Qed.

(** C4.  With the endpoint or the credential missing, empty or still the
    placeholder, the scan sends no request at all and ends at stage [error]
    with the configuration message. *)
Theorem unconfigured_fails_without_request env fu w :
  unconfigured (VITE_SUPABASE_URL env) "https://your-project-ref.supabase.co"
  \/ unconfigured (VITE_SUPABASE_ANON_KEY env) "your-anon-key-here" ->
  let run := App.performScan env fu w in
  requests (effects run) = []%list
  /\ scanProgress (world run) = mkScanProgress error 0 App.config_error_text
  /\ last (progress_events (effects run)) complete_event
     = mkScanProgress error 0 App.config_error_text
  /\ includes "configuration" (message (scanProgress (world run))) = true.
Proof.
  intros Hcfg run. subst run.
  apply unconfigured_not_ok in Hcfg.
  pose proof (try_unconfigured env fu w Hcfg) as Hthrown.
  destruct (performScan_run env fu w)
    as (_ & Hreq & _ & _ & _ &
        [(sid & res & Ho & _) | (t & Ho & Hev & Hp & _)]).
  - rewrite Ho in Hthrown. discriminate Hthrown.
  - rewrite Ho in Hthrown. injection Hthrown as ->.
    rewrite Hcfg in Hreq. rewrite Hreq, Hev, Hp.
    repeat split.
Qed.

Lemma unconfigured_fails_without_request_witness :
  unconfigured (VITE_SUPABASE_URL Sample.unset) "https://your-project-ref.supabase.co"
  /\ requests (effects (App.performScan Sample.unset Sample.hello_upload initial_world))
     = []%list.
Proof.
  split.
  - left. reflexivity.
  - apply (unconfigured_fails_without_request Sample.unset Sample.hello_upload
             initial_world).
    left. left. reflexivity.
Defined.

(* ================================================================== *)
(** ** The remote answer *)
(* ================================================================== *)

(** An empty error text counts as none.  The service answers 200 with
    [{success: false, error: ""}]: the empty string is falsy, so line 129
    falls through to ['Scan failed'], and the text shown is not empty. *)
Lemma blank_service_text_not_shown :
  ~ service_text_shown Sample.blank_error Sample.hello_upload initial_world
      (mkResponse true "OK"
         (inr (JObj [("success", JBool false); ("error", JStr "")]%list)))
      (JObj [("success", JBool false); ("error", JStr "")]%list) "".
Proof.
  unfold service_text_shown. intros H.
  assert (Hshown :
    message (scanProgress (world
      (App.performScan Sample.blank_error Sample.hello_upload initial_world)))
    = "Scan failed") by (vm_compute; reflexivity).
  rewrite H in Hshown; [discriminate Hshown | reflexivity ..].
Qed.



(** C6.  A response without a success status makes the [try] block throw
    ['Scan failed: ' + statusText]; the scan ends at stage [error] with that
    text.  No failed scan stores a record or leaves the scanning view: the
    record slot holds what it held before, so it stays empty when it was. *)
Theorem bad_status_stores_nothing env fu w :
  let run := App.performScan env fu w in
  (forall resp,
      config_ok env = true ->
      fetch env (the_request env fu) = inr resp -> ok resp = false ->
      outcome (App.performScan_try env fu w)
      = inl (ErrorObj ("Scan failed: " ++ statusText resp))
      /\ scanProgress (world run)
         = mkScanProgress error 0 ("Scan failed: " ++ statusText resp))
  /\ (stage (scanProgress (world run)) = error ->
      scanResults (world run) = scanResults w
      /\ appState (world run) = appState w
      /\ (scanResults w = None -> scanResults (world run) = None)).
Proof.
  intros run. subst run.
  destruct (performScan_run env fu w)
    as (_ & _ & _ & _ & _ &
        [(sid & res & Ho & _ & Hp & _) | (t & Ho & _ & Hp & Hres & Happ)]).
  - split.
    + intros resp Hc Hf Hok.
      rewrite (try_bad_status env fu w resp Hc Hf Hok) in Ho. discriminate Ho.
    + rewrite Hp. intros H. discriminate H.
  - split.
    + intros resp Hc Hf Hok.
      pose proof (try_bad_status env fu w resp Hc Hf Hok) as Hthrown.
      rewrite Ho in Hthrown. injection Hthrown as ->.
      split; [exact Ho | exact Hp].
    + intros _. rewrite Hres, Happ. repeat split. intros H; exact H.
Qed.

(** C7.  A text read that fails is swallowed: the request goes out with an
    empty [fileContent], and with a success status and a truthy [success] in
    the envelope the scan ends at stage [complete]. *)
Theorem unreadable_text_still_completes env fu w e resp data flag :
  readAsText (file fu) = inl e ->
  config_ok env = true ->
  fetch env (App.scan_request env fu "") = inr resp -> ok resp = true ->
  json resp = inr data ->
  get_prop (null_read_text env) data "success" = inr flag -> truthy flag = true ->
  let run := App.performScan env fu w in
  outcome (App.performScan_try env fu w) = inr tt
  /\ scanProgress (world run) = complete_event
  /\ appState (world run) = results
  /\ requests (effects run) = [App.scan_request env fu ""]%list
  /\ get_prop (null_read_text env) (body (App.scan_request env fu "")) "fileContent"
     = inr (JStr "")
  /\ In (ConsoleLog "Could not read file as text, continuing without content analysis")
        (effects run).
Proof.
  intros Hread Hc Hf Hok Hj Hs Ht run. subst run.
  assert (Hreq : the_request env fu = App.scan_request env fu "")
    by (unfold the_request, sampled; rewrite Hread; reflexivity).
  rewrite <- Hreq in Hf.
  pose proof (try_accepted env fu w resp data flag Hc Hf Hok Hj Hs Ht) as Hdone.
  destruct (performScan_run env fu w)
    as (_ & Hsent & _ & _ & _ &
        [(sid & res & Ho & _ & Hp & _ & Happ) | (t & Ho & _)]).
  - rewrite Hc, Hreq in Hsent.
    repeat split; try assumption.
    destruct w as [a c p r s h u].
    unfold App.performScan, try_catch.
    remember (App.performScan_try env fu (mkWorld a c p r s h u)) as body0 eqn:Hb.
    crunch_in Hb. rewrite Hread in Hb. crunch_in Hb.
    rewrite config_guard, Hc in Hb. cbn [negb] in Hb. crunch_in Hb.
    rewrite <- Hreq, Hf in Hb. crunch_in Hb.
    rewrite Hok in Hb. cbn [negb] in Hb. crunch_in Hb.
    rewrite Hj in Hb. crunch_in Hb. rewrite Hs in Hb. crunch_in Hb.
    rewrite Ht in Hb. cbn [negb] in Hb. crunch_in Hb.
    destruct (get_prop_twice _ _ _ "scanId" _ Hs) as [sid' Hsid].
    destruct (get_prop_twice _ _ _ "result" _ Hs) as [res' Hres].
    rewrite Hsid in Hb. crunch_in Hb. rewrite Hres in Hb. crunch_in Hb.
    subst body0. crunch. cbn. tauto.
  - rewrite Ho in Hdone. discriminate Hdone.
Qed.

Lemma unreadable_text_still_completes_witness :
  readAsText (file Sample.binary_upload)
  = inl (NonError (JObj [("type", JStr "error")]%list))
  /\ scanProgress (world
       (App.performScan Sample.served Sample.binary_upload initial_world))
     = complete_event.
Proof.
  split; [reflexivity|].
  refine (let H := unreadable_text_still_completes Sample.served Sample.binary_upload
                     initial_world
                     (NonError (JObj [("type", JStr "error")]%list))
                     (mkResponse true "OK" (inr Sample.safe_body)) Sample.safe_body
                     (JBool true)
                     eq_refl eq_refl eq_refl eq_refl eq_refl eq_refl eq_refl in _).
  destruct H as (_ & Hp & _). exact Hp.
Defined.

Lemma bad_status_stores_nothing_witness :
  ok (mkResponse false "Internal Server Error"
        (inr (JObj [("success", JBool false)]%list))) = false
  /\ scanProgress (world
       (App.performScan Sample.http500 Sample.hello_upload initial_world))
     = mkScanProgress error 0 "Scan failed: Internal Server Error"
  /\ scanResults (world
       (App.performScan Sample.http500 Sample.hello_upload initial_world))
     = None.
Proof.
  split; [reflexivity|].
  destruct (bad_status_stores_nothing Sample.http500 Sample.hello_upload initial_world)
    as [Hstatus Hkeep].
  split.
  - apply (Hstatus (mkResponse false "Internal Server Error"
                      (inr (JObj [("success", JBool false)]%list))));
      reflexivity.
  - apply Hkeep; reflexivity.
Defined.

(* ================================================================== *)
(** ** The upload gate *)
(* ================================================================== *)

Lemma gtb_false (x y : Z) : x <= y -> (x >? y) = false.
Proof. intros H. rewrite Z.gtb_ltb. apply Z.ltb_ge. exact H. Qed.

Lemma gtb_true (x y : Z) : x > y -> (x >? y) = true.
Proof. intros H. rewrite Z.gtb_ltb. apply Z.ltb_lt. lia. Qed.

(** A file within the limit whose bytes can be read: the gate hashes it and
    hands it, with its fingerprint, to the callback; what the callback does is
    all that happens afterwards, except that the gate stops showing its
    spinner. *)
Lemma gate_accepts fmt onFileSelect f w buffer :
  size f <= UploadGate.MAX_FILE_SIZE -> arrayBuffer f = inr buffer ->
  let fu := mkFileUpload f (hexOfBytes (Sha256.digest buffer)) 0 in
  let w0 := mkWorld (appState w) (currentFile w) (scanProgress w) (scanResults w)
                    (Some f) true None in
  let inner := onFileSelect fu w0 in
  let run := UploadGate.handleFileSelect fmt onFileSelect f w in
  outcome run = inr tt
  /\ effects run
     = ([ReadArrayBuffer f; SubtleDigest buffer; OnFileSelect fu] ++ effects inner)%list
  /\ appState (world run) = appState (world inner)
  /\ scanProgress (world run) = scanProgress (world inner)
  /\ scanResults (world run) = scanResults (world inner)
  /\ currentFile (world run) = currentFile (world inner).
Proof.
  intros Hsz Hb fu w0 inner run. subst run inner w0 fu.
  destruct w as [a c p r s h u].
  crunch. unfold UploadGate.validateFile. rewrite (gtb_false _ _ Hsz).
  cbn [UploadGate.is_set]. crunch. rewrite Hb. crunch.
  fold (hexOfBytes (Sha256.digest buffer)).
  destruct (onFileSelect _ _) as [o [a' c' p' r' s' h' u'] d].
  crunch. repeat split.
  fold (app d []). rewrite app_nil_r. reflexivity.
Qed.

(** [App.handleFileSelect] adds no effect of its own to the scan's. *)
Lemma app_handleFileSelect_run env fu w :
  let w1 := mkWorld scanning (Some fu) (scanProgress w) (scanResults w)
                    (selectedFile w) (isHashing w) (uploadError w) in
  App.handleFileSelect env fu w = App.performScan env fu w1.
Proof.
  destruct w as [a c p r s h u].
  unfold App.handleFileSelect, bind, setCurrentFile, setAppState.
  cbn [appState currentFile scanProgress scanResults selectedFile isHashing
       uploadError app].
  destruct (App.performScan env fu _) as [[e|[]] w' d]; reflexivity.
Qed.

(** An oversized file leaves the gate at once. *)
Lemma oversized_gate fmt onFileSelect f w :
  size f > UploadGate.MAX_FILE_SIZE ->
  UploadGate.handleFileSelect fmt onFileSelect f w
  = mkRun (inr tt)
      (mkWorld (appState w) (currentFile w) (scanProgress w) (scanResults w)
               (selectedFile w) (isHashing w)
               (Some ("File size exceeds the maximum limit of "
                      ++ fmt UploadGate.MAX_FILE_SIZE)))
      []%list.
Proof.
  intros Hsz.
  destruct w as [a c p r s h u].
  crunch. unfold UploadGate.validateFile.
  rewrite (gtb_true _ _ Hsz).
  cbn [UploadGate.is_set String.append String.eqb negb]. crunch.
  reflexivity.
Qed.

(** C10.  A file larger than 100 * 1024 * 1024 bytes is turned away with the
    size-limit message before anything else happens: the gate reads no bytes,
    computes no digest and never calls [onFileSelect], so no scan starts and
    the application state is untouched. *)
Theorem oversized_file_rejected fmt onFileSelect f w :
  size f > 100 * 1024 * 1024 ->
  let run := UploadGate.handleFileSelect fmt onFileSelect f w in
  outcome run = inr tt
  /\ uploadError (world run)
     = Some ("File size exceeds the maximum limit of " ++ fmt 104857600)
  /\ effects run = []%list
  /\ digests (effects run) = []%list
  /\ selections (effects run) = []%list
  /\ progress_events (effects run) = []%list
  /\ appState (world run) = appState w
  /\ scanProgress (world run) = scanProgress w
  /\ scanResults (world run) = scanResults w
  /\ selectedFile (world run) = selectedFile w.
Proof.
  intros Hsz run. subst run.
  rewrite (oversized_gate fmt onFileSelect f w Hsz).
  destruct w as [a c p r s h u].
  repeat split.
Qed.

Lemma oversized_file_rejected_witness :
  size Sample.oversized > 100 * 1024 * 1024
  /\ uploadError (world (submit Sample.MB100 Sample.served Sample.oversized initial_world))
     = Some "File size exceeds the maximum limit of 100 MB"
  /\ effects (submit Sample.MB100 Sample.served Sample.oversized initial_world)
     = []%list.
Proof.
  split; [reflexivity|].
  refine (let H := oversized_file_rejected Sample.MB100
                     (App.handleFileSelect Sample.served) Sample.oversized
                     initial_world eq_refl in _).
  destruct H as (_ & Herr & Heff & _).
  split; [exact Herr | exact Heff].
Defined.

(* ================================================================== *)
(** ** From the gate to the record *)
(* ================================================================== *)

(** An accepted file: the scan runs on the upload the gate built. *)
Lemma submit_accepts fmt env f w buffer :
  size f <= UploadGate.MAX_FILE_SIZE -> arrayBuffer f = inr buffer ->
  let fu := mkFileUpload f (hexOfBytes (Sha256.digest buffer)) 0 in
  let w1 := mkWorld scanning (Some fu) (scanProgress w) (scanResults w)
                    (Some f) true None in
  let scan := App.performScan env fu w1 in
  let run := submit fmt env f w in
  effects run
  = ([ReadArrayBuffer f; SubtleDigest buffer; OnFileSelect fu] ++ effects scan)%list
  /\ appState (world run) = appState (world scan)
  /\ scanProgress (world run) = scanProgress (world scan)
  /\ scanResults (world run) = scanResults (world scan).
Proof.
  intros Hsz Hb fu w1 scan run. subst run scan w1 fu. unfold submit.
  destruct (gate_accepts fmt (App.handleFileSelect env) f w buffer Hsz Hb)
    as (_ & Heff & Happ & Hprog & Hres & _).
  rewrite app_handleFileSelect_run in Heff, Happ, Hprog, Hres.
  cbn [appState currentFile scanProgress scanResults selectedFile isHashing
       uploadError] in Heff, Happ, Hprog, Hres.
  repeat split; assumption.
Qed.

Lemma complete_not_among_failed thrown :
  ~ In complete_event (pacing_events ++ [failed_event thrown])%list.
Proof.
  cbn. intros H.
  repeat (destruct H as [H | H]; [discriminate H|]). exact H.
Qed.

(** C8.  When a submitted file's scan reaches [complete], the stored record
    carries the fingerprint the gate computed from the file's own bytes,
    together with the file's name and size, whatever the service put in its
    answer. *)
Theorem record_carries_local_fingerprint fmt env f w :
  let run := submit fmt env f w in
  In complete_event (progress_events (effects run)) ->
  exists buffer record,
    arrayBuffer f = inr buffer
    /\ digests (effects run) = [buffer]%list
    /\ scanResults (world run) = Some record
    /\ Scan.sha256Hash record = hexOfBytes (Sha256.digest buffer)
    /\ Scan.fileName record = name f
    /\ Scan.fileSize record = size f.
Proof.
  intros run Hdone. subst run.
  destruct (Z_le_gt_dec (size f) UploadGate.MAX_FILE_SIZE) as [Hsz | Hsz].
  - destruct (arrayBuffer f) as [e | buffer] eqn:Hb.
    + destruct (hash_failure_starts_no_scan fmt (App.handleFileSelect env) f w e Hsz Hb)
        as (_ & Heff & _).
      unfold submit in Hdone. rewrite Heff in Hdone. contradiction Hdone.
    + destruct (submit_accepts fmt env f w buffer Hsz Hb) as (Heff & _ & _ & Hres).
      rewrite Heff in Hdone |- *. rewrite Hres.
      cbn [app progress_events digests] in Hdone |- *.
      match type of Hres with context [App.performScan env ?fu ?w1] =>
        destruct (performScan_run env fu w1)
          as (_ & _ & Hdig & _ & _ &
              [(sid & res & _ & _ & _ & Hrec & _) | (t & _ & Hev & _)])
      end.
      * exists buffer. eexists. rewrite Hdig, Hrec.
        repeat split.
      * rewrite Hev in Hdone. now apply complete_not_among_failed in Hdone.
  - unfold submit in Hdone.
    rewrite (oversized_gate fmt (App.handleFileSelect env) f w Hsz) in Hdone.
    contradiction Hdone.
Qed.

Lemma record_carries_local_fingerprint_witness :
  In complete_event
     (progress_events (effects (submit Sample.MB100 Sample.served Sample.hello initial_world)))
  /\ exists buffer record,
       arrayBuffer Sample.hello = inr buffer
       /\ digests (effects (submit Sample.MB100 Sample.served Sample.hello initial_world))
          = [buffer]%list
       /\ scanResults (world (submit Sample.MB100 Sample.served Sample.hello initial_world))
          = Some record
       /\ Scan.sha256Hash record = hexOfBytes (Sha256.digest buffer)
       /\ Scan.fileName record = name Sample.hello
       /\ Scan.fileSize record = size Sample.hello.
Proof.
  assert (Hdone : In complete_event
     (progress_events (effects (submit Sample.MB100 Sample.served Sample.hello initial_world))))
    by (vm_compute; tauto).
  split; [exact Hdone|].
  exact (record_carries_local_fingerprint Sample.MB100 Sample.served Sample.hello
           initial_world Hdone).
Defined.

(** C9.  An accepted file scanned under a usable configuration causes exactly
    one request, whatever comes back: a POST to the endpoint's
    [/functions/v1/malware-scan] with the bearer credential, whose body has
    the four fields [sha256Hash] (the 64 hexadecimal characters of the file's
    fingerprint), [fileName], [fileSize] and [fileContent] (the sampled text,
    empty when the read failed). *)
Theorem single_request fmt env f w buffer :
  size f <= UploadGate.MAX_FILE_SIZE -> arrayBuffer f = inr buffer ->
  config_ok env = true ->
  let run := submit fmt env f w in
  let h := hexOfBytes (Sha256.digest buffer) in
  exists endpoint credential,
    VITE_SUPABASE_URL env = Some endpoint
    /\ VITE_SUPABASE_ANON_KEY env = Some credential
    /\ requests (effects run)
       = [ mkRequest (endpoint ++ "/functions/v1/malware-scan") "POST"
             [ ("Authorization", "Bearer " ++ credential);
               ("Content-Type", "application/json") ]
             (JObj [ ("sha256Hash", JStr h);
                     ("fileName", JStr (name f));
                     ("fileSize", JNum (size f));
                     ("fileContent", JStr (sampled f)) ]) ]
    /\ String.length h = 64%nat
    /\ all_chars is_lower_hex h = true.
Proof.
  intros Hsz Hb Hc run h. subst run h.
  destruct (submit_accepts fmt env f w buffer Hsz Hb) as (Heff & _).
  rewrite Heff. cbn [app requests].
  match type of Heff with context [App.performScan env ?fu ?w1] =>
    destruct (performScan_run env fu w1) as (_ & Hreq & _)
  end.
  rewrite Hc in Hreq. rewrite Hreq.
  unfold config_ok in Hc.
  destruct (VITE_SUPABASE_URL env) as [endpoint|] eqn:Hu; [|discriminate Hc].
  destruct (VITE_SUPABASE_ANON_KEY env) as [credential|] eqn:Hk;
    [| cbn in Hc; rewrite !orb_true_r in Hc; discriminate Hc].
  exists endpoint, credential.
  destruct (hexOfBytes_shape (Sha256.digest buffer)) as [Hl Hx].
  rewrite digest_length in Hl.
  unfold the_request, App.scan_request. rewrite Hu, Hk.
  cbn [file sha256Hash App.interpolate].
  repeat split; assumption.
Qed.

Lemma single_request_witness :
  List.length
    (requests (effects (submit Sample.MB100 Sample.served Sample.hello initial_world)))
  = 1%nat.
Proof.
  destruct (single_request Sample.MB100 Sample.served Sample.hello initial_world
              (list_byte_of_string "hello world!"))
    as (endpoint & credential & _ & _ & Hreq & _).
  - vm_compute. discriminate.
  - reflexivity.
  - reflexivity.
  - rewrite Hreq. reflexivity.
Defined.

(* ================================================================== *)
(** ** The stage rows *)
(* ================================================================== *)

(** X3.  While the scan is at one of its seven stages, the rows before that
    stage are green with a check mark, the rows after it are gray with their
    own icon, and the row of the stage itself is the blue one with the
    spinner; at [complete] all seven rows are green and checked. *)
Theorem rows_follow_the_stage (progress : ScanProgress) :
  stage progress <> error ->
  let k := Z.to_nat (ProgressView.getCurrentStageIndex progress) in
  let done := stage_eqb (stage progress) complete in
  (k <= 6)%nat
  /\ nth_error (map ProgressView.id ProgressView.stages) k = Some (stage progress)
  /\ ProgressView.tones progress
     = (repeat ProgressView.Green k
          ++ [if done then ProgressView.Green else ProgressView.Blue]
          ++ repeat ProgressView.Gray (6 - k))%list
  /\ ProgressView.icons progress
     = (repeat ProgressView.CheckCircle k
          ++ [if done then ProgressView.CheckCircle else ProgressView.Loader]
          ++ map ProgressView.icon (skipn (S k) ProgressView.stages))%list.
Proof.
  destruct progress as [st pr msg]. cbn [stage].
  destruct st; intros Hne; try (exfalso; apply Hne; reflexivity);
    (split; [vm_compute; lia | vm_compute; repeat split]).
Qed.

Lemma rows_follow_the_stage_witness :
  ProgressView.tones (mkScanProgress heuristic 50 "Performing heuristic analysis...")
  = [ProgressView.Green; ProgressView.Green; ProgressView.Green; ProgressView.Blue;
     ProgressView.Gray; ProgressView.Gray; ProgressView.Gray]%list.
Proof.
  assert (Hne : stage (mkScanProgress heuristic 50 "Performing heuristic analysis...")
                <> error) by (cbn [stage]; intros E; discriminate E).
  destruct (rows_follow_the_stage
              (mkScanProgress heuristic 50 "Performing heuristic analysis...") Hne)
    as (_ & _ & Htones & _).
  exact Htones.
Defined.

(** X4.  No row is ever drawn as failed: [error] is not one of the listed
    stages, so the current index is -1 and [isError] is false at every row.
    In the failed state all seven rows are gray with their own icons, none is
    active or completed; the failure shows only in the header icon and in the
    panel under the rows, which carries the message. *)
Theorem failed_state_marks_no_row (progress : ScanProgress) :
  (forall index, 0 <= index -> ProgressView.isError progress index = false)
  /\ (stage progress = error ->
      ProgressView.getCurrentStageIndex progress = -1
      /\ ProgressView.tones progress = repeat ProgressView.Gray 7
      /\ ProgressView.icons progress = map ProgressView.icon ProgressView.stages
      /\ ProgressView.checked progress = 0%nat
      /\ ProgressView.headerIcon progress = ProgressView.XCircle
      /\ ProgressView.errorPanel progress = Some (message progress)).
Proof.
  destruct progress as [st pr msg]. split.
  - intros index Hi. unfold ProgressView.isError. cbn [stage].
    destruct st; try reflexivity.
    change (ProgressView.getCurrentStageIndex (mkScanProgress error pr msg)) with (-1).
    cbn [stage_eqb andb]. apply Z.eqb_neq. lia.
  - cbn [stage]. intros ->. vm_compute. repeat split.
Qed.

Lemma failed_state_marks_no_row_witness :
  ProgressView.isError (mkScanProgress error 0 "Scan failed") 5 = false
  /\ ProgressView.tones (mkScanProgress error 0 "Scan failed")
     = repeat ProgressView.Gray 7.
Proof.
  destruct (failed_state_marks_no_row (mkScanProgress error 0 "Scan failed"))
    as [Hrow Hall].
  split.
  - apply Hrow. discriminate.
  - destruct (Hall eq_refl) as (_ & Htones & _). exact Htones.
Defined.

(* ================================================================== *)
(** ** More on the upload component *)
(* ================================================================== *)

(** Case analysis along the [try] block of [performScan], on the hypothesis
    that holds its run. *)
Ltac scan_cases env fu Hbody :=
  let resp := fresh "resp" in
  let data := fresh "data" in
  let flag := fresh "flag" in
  let Hs := fresh "Hs" in
  let Hsid := fresh "Hsid" in
  let Hres := fresh "Hres" in
  let Herr := fresh "Herr" in
  crunch_in Hbody; rewrite config_guard in Hbody;
  destruct (readAsText (file fu)) as [?|?]; crunch_in Hbody;
  (destruct (config_ok env); cbn [negb] in Hbody; crunch_in Hbody;
   [ match type of Hbody with context [fetch env ?q] =>
       destruct (fetch env q) as [?|resp] end;
     crunch_in Hbody;
     [ | destruct (ok resp); cbn [negb] in Hbody; crunch_in Hbody;
         [ destruct (json resp) as [?|data]; crunch_in Hbody;
           [ | destruct (get_prop (null_read_text env) data "success")
                 as [?|flag] eqn:Hs;
               crunch_in Hbody;
               [ | destruct (truthy flag); cbn [negb] in Hbody; crunch_in Hbody;
                   [ destruct (get_prop_twice _ _ _ "scanId" _ Hs) as [? Hsid];
                     destruct (get_prop_twice _ _ _ "result" _ Hs) as [? Hres];
                     rewrite Hsid in Hbody; crunch_in Hbody;
                     rewrite Hres in Hbody; crunch_in Hbody
                   | destruct (get_prop_twice _ _ _ "error" _ Hs) as [? Herr];
                     rewrite Herr in Hbody; crunch_in Hbody ] ] ]
         | ] ]
   | ]).



(** X6.  The limit is inclusive: a file is read (and then hashed) exactly
    when its size is at most 100 * 1024 * 1024 bytes, whatever the text
    [formatFileSize] produces for the message; a larger file causes no effect
    at all. *)
Theorem read_iff_within_limit fmt onFileSelect f w :
  let run := UploadGate.handleFileSelect fmt onFileSelect f w in
  (size f <= 104857600 <-> hd_error (effects run) = Some (ReadArrayBuffer f))
  /\ (size f > 104857600 <-> effects run = []%list).
Proof.
  intros run. subst run.
  change 104857600 with UploadGate.MAX_FILE_SIZE.
  destruct (Z_le_gt_dec (size f) UploadGate.MAX_FILE_SIZE) as [Hle | Hgt].
  - assert (Hhd : hd_error (effects (UploadGate.handleFileSelect fmt onFileSelect f w))
                  = Some (ReadArrayBuffer f)).
    { destruct (arrayBuffer f) as [e | buffer] eqn:Hb.
      - destruct (hash_failure_starts_no_scan fmt onFileSelect f w e Hle Hb)
          as (_ & Heff & _).
        rewrite Heff. reflexivity.
      - destruct (gate_accepts fmt onFileSelect f w buffer Hle Hb) as (_ & Heff & _).
        rewrite Heff. reflexivity. }
    split; split; intros H; try assumption; try lia.
    rewrite H in Hhd. discriminate Hhd.
  - rewrite (oversized_gate fmt onFileSelect f w Hgt). cbn [effects hd_error].
    split; split; intros H; try assumption; try reflexivity; try lia.
    discriminate H.
Qed.

Lemma read_iff_within_limit_witness :
  hd_error (effects
    (UploadGate.handleFileSelect Sample.MB100 (App.handleFileSelect Sample.served)
       (mkFile "limit.bin" 104857600 (inr []%list) (inr "")) initial_world))
  = Some (ReadArrayBuffer (mkFile "limit.bin" 104857600 (inr []%list) (inr ""))).
Proof.
  apply (read_iff_within_limit Sample.MB100 (App.handleFileSelect Sample.served)
           (mkFile "limit.bin" 104857600 (inr []%list) (inr "")) initial_world).
  cbn [size]. lia.
Defined.

(** X7.  [handleFileSelect] never throws, whatever the file and whatever the
    callback does, and it never leaves the hashing indicator on: past the
    size check the [finally] clause turns it off, and a rejected file does
    not touch it. *)
Theorem gate_never_throws fmt onFileSelect f w :
  let run := UploadGate.handleFileSelect fmt onFileSelect f w in
  outcome run = inr tt
  /\ (size f <= UploadGate.MAX_FILE_SIZE -> isHashing (world run) = false)
  /\ (size f > UploadGate.MAX_FILE_SIZE -> isHashing (world run) = isHashing w).
Proof.
  intros run. subst run.
  destruct (Z_le_gt_dec (size f) UploadGate.MAX_FILE_SIZE) as [Hle | Hgt].
  - assert (H : outcome (UploadGate.handleFileSelect fmt onFileSelect f w) = inr tt
                /\ isHashing (world (UploadGate.handleFileSelect fmt onFileSelect f w))
                   = false).
    { destruct w as [a c p r s h u].
      crunch. unfold UploadGate.validateFile. rewrite (gtb_false _ _ Hle).
      cbn [UploadGate.is_set]. crunch.
      destruct (arrayBuffer f) as [e | buffer]; crunch; [split; reflexivity|].
      destruct (onFileSelect _ _) as [o [a' c' p' r' s' h' u'] d].
      crunch. split; reflexivity. }
    destruct H as [Ho Hh].
    split; [exact Ho | split; [intros _; exact Hh | intros Hgt; lia]].
  - rewrite (oversized_gate fmt onFileSelect f w Hgt).
    cbn [outcome world isHashing].
    split; [reflexivity | split; [intros Hle; lia | intros _; reflexivity]].
Qed.

Lemma gate_never_throws_witness :
  size Sample.binary <= UploadGate.MAX_FILE_SIZE
  /\ isHashing (world
       (UploadGate.handleFileSelect Sample.MB100 (fun _ => throw (ErrorObj "boom"))
          Sample.binary initial_world))
     = false.
Proof.
  assert (Hle : size Sample.binary <= UploadGate.MAX_FILE_SIZE)
    by (vm_compute; discriminate).
  split; [exact Hle|].
  destruct (gate_never_throws Sample.MB100 (fun _ => throw (ErrorObj "boom"))
              Sample.binary initial_world) as (_ & Hoff & _).
  exact (Hoff Hle).
Defined.

(** X8.  A file within the limit whose bytes cannot be read: the component
    logs the failure and shows "Error processing file. Please try again.";
    the file stays displayed as selected, the indicator is off, no digest is
    computed, the callback is not called, and nothing of the application's
    state changes. *)
Theorem unreadable_file_reported fmt onFileSelect f w e :
  size f <= UploadGate.MAX_FILE_SIZE -> arrayBuffer f = inl e ->
  UploadGate.handleFileSelect fmt onFileSelect f w
  = mkRun (inr tt)
      (mkWorld (appState w) (currentFile w) (scanProgress w) (scanResults w)
               (Some f) false (Some "Error processing file. Please try again."))
      [ReadArrayBuffer f; ConsoleError "Error calculating file hash:"]%list.
Proof.
  intros Hle Hb. destruct w as [a c p r s h u].
  crunch. unfold UploadGate.validateFile. rewrite (gtb_false _ _ Hle).
  cbn [UploadGate.is_set]. crunch. rewrite Hb. crunch. reflexivity.
Qed.

Lemma unreadable_file_reported_witness :
  uploadError (world
    (submit Sample.MB100 Sample.served
       (mkFile "gone.txt" 3 (inl (ErrorObj "NotReadableError")) (inr "abc"))
       initial_world))
  = Some "Error processing file. Please try again.".
Proof.
  unfold submit.
  rewrite (unreadable_file_reported Sample.MB100 (App.handleFileSelect Sample.served)
             (mkFile "gone.txt" 3 (inl (ErrorObj "NotReadableError")) (inr "abc"))
             initial_world (ErrorObj "NotReadableError"));
    [reflexivity | vm_compute; discriminate | reflexivity].
Defined.


(* ================================================================== *)
(** ** File icons and verdict colours *)
(* ================================================================== *)

Lemma split_dot_tail (a b : string) :
  exists p ps,
    FileUtils.split_dot (a ++ String "."%char b) = (p :: ps)%list
    /\ ps <> []%list
    /\ FileUtils.pop ps = FileUtils.pop (FileUtils.split_dot b).
Proof.
  assert (Hne : forall s, FileUtils.split_dot s <> []%list).
  { intros s. destruct s as [|c s]; cbn; [discriminate|].
    destruct (Ascii.eqb c "."); [discriminate|].
    destruct (FileUtils.split_dot s); discriminate. }
  induction a as [|c a (p & ps & Hs & Hps & Hpop)].
  - exists "", (FileUtils.split_dot b). cbn. repeat split. apply Hne.
  - change (String c a ++ String "."%char b)
      with (String c (a ++ String "."%char b)).
    cbn [FileUtils.split_dot]. rewrite Hs.
    destruct (Ascii.eqb c ".").
    + exists "", (p :: ps)%list. repeat split; [discriminate|].
      rewrite <- Hpop. destruct ps; [contradiction | reflexivity].
    + exists (String c p), ps. repeat split; assumption.
Qed.

Lemma pop_after_dot (a b : string) :
  FileUtils.pop (FileUtils.split_dot (a ++ "." ++ b))
  = FileUtils.pop (FileUtils.split_dot b).
Proof.
  change ("." ++ b) with (String "."%char b).
  destruct (split_dot_tail a b) as (p & ps & Hs & Hps & Hpop).
  rewrite Hs, <- Hpop. destruct ps; [contradiction | reflexivity].
Qed.

Lemma icon_of_extension_only inherited (prefix rest : string) :
  FileUtils.getFileIcon inherited (prefix ++ "." ++ rest)
  = FileUtils.getFileIcon inherited rest.
Proof.
  unfold FileUtils.getFileIcon. rewrite pop_after_dot. reflexivity.
Qed.

Lemma lower_char_dot (c : ascii) :
  Ascii.eqb "."%char (FileUtils.lower_char c) = Ascii.eqb "."%char c.
Proof.
  destruct c as [[] [] [] [] [] [] [] []]; reflexivity.
Qed.

Lemma has_dot_lower (s : string) :
  Threats.has_dot (FileUtils.toLowerCase s) = Threats.has_dot s.
Proof.
  unfold Threats.has_dot.
  induction s as [|c s IH]; [reflexivity|].
  cbn [FileUtils.toLowerCase list_ascii_of_string existsb].
  now rewrite lower_char_dot, IH.
Qed.

Lemma split_dot_single (s : string) :
  Threats.has_dot s = false -> FileUtils.split_dot s = [s]%list.
Proof.
  unfold Threats.has_dot.
  induction s as [|c s IH]; [reflexivity|].
  cbn [list_ascii_of_string existsb FileUtils.split_dot].
  rewrite Ascii.eqb_sym. destruct (Ascii.eqb c "."); [discriminate|].
  cbn [orb]. intros H. rewrite (IH H). reflexivity.
Qed.

(** X10.  The icon of a file depends only on what follows the last dot of
    its name: any prefix ending in a dot can be dropped.  A name without a
    dot is therefore its own extension (a file called [exe] gets the icon of
    [setup.exe]). *)
Theorem icon_of_last_extension inherited (prefix rest : string) :
  FileUtils.getFileIcon inherited (prefix ++ "." ++ rest)
  = FileUtils.getFileIcon inherited rest
  /\ (Threats.has_dot rest = false ->
      FileUtils.getFileIcon inherited rest
      = FileUtils.look inherited FileUtils.iconMap (FileUtils.toLowerCase rest) "📄").
Proof.
  split.
  - apply icon_of_extension_only.
  - intros Hdot. unfold FileUtils.getFileIcon.
    rewrite split_dot_single by exact Hdot. reflexivity.
Qed.

Lemma icon_entries_sound :
  Forall (fun kv =>
            Threats.has_dot (fst kv) = false
            /\ FileUtils.own FileUtils.iconMap (fst kv) = Some (snd kv)
            /\ String.eqb (snd kv) "" = false)
         FileUtils.iconMap.
Proof. repeat constructor. Qed.

(** X11.  Extensions are matched without regard to case: when the text
    after the last dot lower-cases to a key of the icon table, the file gets
    that key's icon, with or without a base name in front. *)
Theorem known_extension_any_case inherited (base ext key icon : string) :
  In (key, icon) FileUtils.iconMap ->
  FileUtils.toLowerCase ext = key ->
  FileUtils.getFileIcon inherited (base ++ "." ++ ext) = FileUtils.Text icon
  /\ FileUtils.getFileIcon inherited ext = FileUtils.Text icon.
Proof.
  intros Hin Hlow.
  pose proof icon_entries_sound as Hall.
  rewrite Forall_forall in Hall.
  destruct (Hall _ Hin) as (Hdot & Hown & Hne). cbn [fst snd] in *.
  assert (Hext : FileUtils.getFileIcon inherited ext = FileUtils.Text icon).
  { unfold FileUtils.getFileIcon, FileUtils.look.
    rewrite split_dot_single by (rewrite <- has_dot_lower, Hlow; exact Hdot).
    cbn [FileUtils.pop option_map]. rewrite Hlow, Hown, Hne. reflexivity. }
  split; [rewrite icon_of_extension_only | ]; exact Hext.
Qed.

Lemma icon_of_last_extension_witness :
  FileUtils.getFileIcon FileUtils.Object_prototype ("archive.tar" ++ "." ++ "gz")
  = FileUtils.getFileIcon FileUtils.Object_prototype "gz"
  /\ FileUtils.getFileIcon FileUtils.Object_prototype "exe" = FileUtils.Text "⚠️".
Proof.
  destruct (icon_of_last_extension FileUtils.Object_prototype "archive.tar" "gz")
    as [Hlast _].
  destruct (icon_of_last_extension FileUtils.Object_prototype "archive.tar" "exe")
    as [_ Hbare].
  split; [exact Hlast|].
  rewrite Hbare; reflexivity.
Defined.

Lemma known_extension_any_case_witness :
  FileUtils.getFileIcon FileUtils.Object_prototype ("SETUP" ++ "." ++ "ExE")
  = FileUtils.Text "⚠️".
Proof.
  apply (known_extension_any_case FileUtils.Object_prototype "SETUP" "ExE" "exe" "⚠️").
  - left. reflexivity.
  - reflexivity.
Defined.

Lemma own_In obj key v : FileUtils.own obj key = Some v -> In (key, v) obj.
Proof.
  induction obj as [|[k x] rest IH]; cbn; [discriminate|].
  destruct (String.eqb_spec key k) as [->|_].
  - intros H. injection H as ->. left. reflexivity.
  - intros H. right. apply IH. exact H.
Qed.

(** X12.  [getFileIcon] always answers with something to draw: one of the
    table's icons or the page icon, never an empty text.  For a name with an
    unknown extension, no extension at all or a trailing dot it is the page
    icon, unless the extension names a member every object inherits, in which
    case that member, not a text, comes back. *)
Theorem icon_never_empty inherited (fileName : string) :
  match FileUtils.getFileIcon inherited fileName with
  | FileUtils.Text icon =>
      icon <> ""
      /\ (icon = "📄" \/ In icon (map snd FileUtils.iconMap))
  | FileUtils.Builtin key =>
      inherited key = true /\ FileUtils.own FileUtils.iconMap key = None
  end
  /\ FileUtils.getFileIcon inherited (fileName ++ ".")
     = (if inherited "" then FileUtils.Builtin "" else FileUtils.Text "📄").
Proof.
  split.
  - unfold FileUtils.getFileIcon, FileUtils.look.
    destruct (FileUtils.own FileUtils.iconMap _) as [v|] eqn:Hown.
    + destruct (String.eqb_spec v "") as [->|Hne].
      * split; [discriminate | left; reflexivity].
      * split; [exact Hne|]. right.
        apply own_In in Hown. apply (in_map snd) in Hown. exact Hown.
    + destruct (inherited _) eqn:Hinh.
      * split; [exact Hinh | exact Hown].
      * split; [discriminate | left; reflexivity].
  - change (fileName ++ ".") with (fileName ++ "." ++ "").
    rewrite icon_of_extension_only. reflexivity.
Qed.

(** X13.  The two colour tables know the same verdicts: a verdict gets the
    gray text colour exactly when it gets the gray background, and every
    verdict other than safe, suspicious, malicious and critical that names no
    inherited member gets both. *)
Theorem verdict_colours_agree inherited (verdict : string) :
  (FileUtils.getThreatColor inherited verdict = FileUtils.Text "text-gray-600"
   <-> FileUtils.getThreatBgColor inherited verdict = FileUtils.Text "bg-gray-100")
  /\ (~ In verdict ["safe"; "suspicious"; "malicious"; "critical"]%list ->
      inherited verdict = false ->
      FileUtils.getThreatColor inherited verdict = FileUtils.Text "text-gray-600"
      /\ FileUtils.getThreatBgColor inherited verdict = FileUtils.Text "bg-gray-100").
Proof.
  unfold FileUtils.getThreatColor, FileUtils.getThreatBgColor, FileUtils.look,
    FileUtils.textColors, FileUtils.bgColors.
  cbn [FileUtils.own].
  destruct (String.eqb_spec verdict "safe") as [->|H1];
    [cbn; split; [split; intros H; discriminate H | intros H; exfalso; apply H; cbn; tauto]|].
  destruct (String.eqb_spec verdict "suspicious") as [->|H2];
    [cbn; split; [split; intros H; discriminate H | intros H; exfalso; apply H; cbn; tauto]|].
  destruct (String.eqb_spec verdict "malicious") as [->|H3];
    [cbn; split; [split; intros H; discriminate H | intros H; exfalso; apply H; cbn; tauto]|].
  destruct (String.eqb_spec verdict "critical") as [->|H4];
    [cbn; split; [split; intros H; discriminate H | intros H; exfalso; apply H; cbn; tauto]|].
  destruct (inherited verdict).
  - split; [split; intros H; discriminate H | intros _ H; discriminate H].
  - split; [split; reflexivity | intros _ _; split; reflexivity].
Qed.

Lemma verdict_colours_agree_witness :
  FileUtils.getThreatColor FileUtils.Object_prototype "unknown"
  = FileUtils.Text "text-gray-600"
  /\ FileUtils.getThreatBgColor FileUtils.Object_prototype "Safe"
     = FileUtils.Text "bg-gray-100".
Proof.
  destruct (verdict_colours_agree FileUtils.Object_prototype "unknown") as [_ Hun].
  destruct (verdict_colours_agree FileUtils.Object_prototype "Safe") as [_ Hcap].
  split.
  - apply Hun; [|reflexivity].
    cbn. intros [H|[H|[H|[H|[]]]]]; discriminate H.
  - apply Hcap; [|reflexivity].
    cbn. intros [H|[H|[H|[H|[]]]]]; discriminate H.
Defined.

(* ================================================================== *)
(** ** The threat list *)
(* ================================================================== *)

Lemma includes_empty (s : string) : includes "" s = true.
Proof. destruct s; reflexivity. Qed.

Lemma filter_all {A} (f : A -> bool) (l : list A) :
  (forall x, In x l -> f x = true) -> filter f l = l.
Proof.
  induction l as [|x l IH]; intros H; [reflexivity|].
  cbn. rewrite (H x (or_introl eq_refl)). f_equal.
  apply IH. intros y Hy. apply H. right. exact Hy.
Qed.

(** X14.  With an empty search box every threat passes the search test, so
    with the filter on "all" the list shown is the whole list, in order; with
    the filter on a verdict the list shown holds exactly the threats of that
    verdict, as many as [tally] counts. *)
Theorem empty_search_shows_by_verdict (st : Threats.State) :
  Threats.searchTerm st = "" ->
  (Threats.filterVerdict st = "all" ->
   Threats.filteredThreats st = Threats.threats st)
  /\ (Threats.filterVerdict st <> "all" ->
      Threats.filteredThreats st
      = filter (fun t => String.eqb (Threats.overallVerdict t) (Threats.filterVerdict st))
               (Threats.threats st)
      /\ Z.of_nat (List.length (Threats.filteredThreats st))
         = Threats.tally (Threats.filterVerdict st) (Threats.threats st)
      /\ Forall (fun t => Threats.overallVerdict t = Threats.filterVerdict st)
                (Threats.filteredThreats st)).
Proof.
  intros Hs.
  assert (Hsearch : forall t, Threats.matchesSearch st t = true).
  { intros t. unfold Threats.matchesSearch. rewrite Hs. cbn [FileUtils.toLowerCase].
    rewrite includes_empty. reflexivity. }
  split.
  - intros Hf. unfold Threats.filteredThreats. apply filter_all.
    intros t _. rewrite Hsearch. unfold Threats.matchesFilter. rewrite Hf.
    reflexivity.
  - intros Hf.
    assert (Heq : Threats.filteredThreats st
                  = filter (fun t => String.eqb (Threats.overallVerdict t)
                                                (Threats.filterVerdict st))
                           (Threats.threats st)).
    { unfold Threats.filteredThreats. apply filter_ext. intros t.
      rewrite Hsearch. unfold Threats.matchesFilter.
      destruct (String.eqb_spec (Threats.filterVerdict st) "all") as [E|_];
        [contradiction | reflexivity]. }
    split; [exact Heq|]. split.
    + rewrite Heq. reflexivity.
    + rewrite Heq. apply Forall_forall. intros t Ht.
      apply filter_In in Ht. destruct Ht as [_ Ht].
      apply String.eqb_eq. exact Ht.
Qed.

Lemma empty_search_shows_by_verdict_witness :
  Threats.filteredThreats
    (Threats.mkState
       [ Threats.mkThreat "1" "ab" "a.exe" 1 "malicious" 90 "2025-06-23" 2;
         Threats.mkThreat "2" "cd" "b.txt" 2 "safe" 0 "2025-06-22" 1 ]%list
       false "" "all")
  = [ Threats.mkThreat "1" "ab" "a.exe" 1 "malicious" 90 "2025-06-23" 2;
      Threats.mkThreat "2" "cd" "b.txt" 2 "safe" 0 "2025-06-22" 1 ]%list.
Proof.
  destruct (empty_search_shows_by_verdict
              (Threats.mkState
                 [ Threats.mkThreat "1" "ab" "a.exe" 1 "malicious" 90 "2025-06-23" 2;
                   Threats.mkThreat "2" "cd" "b.txt" 2 "safe" 0 "2025-06-22" 1 ]%list
                 false "" "all") eq_refl) as [Hall _].
  exact (Hall eq_refl).
Defined.

(** X15.  After [fetchThreatIntelligence] the loading flag is off and the
    search box and filter are as before, however the query ended.  A query
    that rejects or answers with an error leaves the list as it was and logs
    once; an answer without error replaces the list by one threat per row, in
    the rows' order, and by the empty list when [data] is [null]. *)
Theorem fetch_settles (settled : Thrown + Threats.Reply) (st : Threats.State) :
  let st' := fst (Threats.fetchThreatIntelligence settled st) in
  let log := snd (Threats.fetchThreatIntelligence settled st) in
  Threats.loading st' = false
  /\ Threats.searchTerm st' = Threats.searchTerm st
  /\ Threats.filterVerdict st' = Threats.filterVerdict st
  /\ ((exists e, settled = inl e) \/ (exists r e, settled = inr r /\ Threats.error r = Some e) ->
      Threats.threats st' = Threats.threats st
      /\ log = [ConsoleError "Error fetching threat intelligence:"]%list)
  /\ (forall r, settled = inr r -> Threats.error r = None ->
      log = []%list
      /\ (forall rows, Threats.data r = Some rows ->
            Threats.threats st' = map Threats.toThreat rows
            /\ List.length (Threats.threats st') = List.length rows)
      /\ (Threats.data r = None -> Threats.threats st' = []%list)).
Proof.
  unfold Threats.fetchThreatIntelligence.
  destruct settled as [e | [d [e|]]]; cbn;
    (split; [reflexivity|]); (split; [reflexivity|]); (split; [reflexivity|]);
    split.
  - intros _. split; reflexivity.
  - intros r H. discriminate H.
  - intros _. split; reflexivity.
  - intros r H He. injection H as <-. discriminate He.
  - intros [[e H] | (r & e & H & He)]; [discriminate H|].
    injection H as <-. discriminate He.
  - intros r H _. injection H as <-. cbn.
    split; [reflexivity|]. split.
    + intros rows ->. split; [reflexivity | apply length_map].
    + intros ->. reflexivity.
Qed.

Lemma fetch_settles_witness :
  Threats.threats
    (fst (Threats.fetchThreatIntelligence
            (inr (Threats.mkReply None (Some (ErrorObj "permission denied"))))
            (Threats.mkState
               [Threats.mkThreat "1" "ab" "a.exe" 1 "malicious" 90 "2025-06-23" 2]%list
               true "" "all")))
  = [Threats.mkThreat "1" "ab" "a.exe" 1 "malicious" 90 "2025-06-23" 2]%list.
Proof.
  destruct (fetch_settles
              (inr (Threats.mkReply None (Some (ErrorObj "permission denied"))))
              (Threats.mkState
                 [Threats.mkThreat "1" "ab" "a.exe" 1 "malicious" 90 "2025-06-23" 2]%list
                 true "" "all")) as (_ & _ & _ & Hfail & _).
  destruct Hfail as [Hkeep _]; [|exact Hkeep].
  right. eexists. eexists. split; reflexivity.
Defined.

(** X16.  Every threat built from a row has a verdict to show: the verdict
    of the row's first result when that is a non-empty text, and "unknown"
    with score 0 for a row without results.  Such a row is drawn in the gray
    colours whenever "unknown" names no inherited member. *)
Theorem mapped_threat_has_verdict inherited (item : Threats.HashRow) :
  let t := Threats.toThreat item in
  Threats.overallVerdict t <> ""
  /\ (forall r, Threats.first_result item = Some r ->
        Threats.overall_verdict r <> "" ->
        Threats.overallVerdict t = Threats.overall_verdict r
        /\ Threats.threatScore t = Threats.threat_score r)
  /\ (Threats.first_result item = None ->
        Threats.overallVerdict t = "unknown" /\ Threats.threatScore t = 0
        /\ (inherited "unknown" = false ->
            FileUtils.getThreatColor inherited (Threats.overallVerdict t)
            = FileUtils.Text "text-gray-600"
            /\ FileUtils.getThreatBgColor inherited (Threats.overallVerdict t)
               = FileUtils.Text "bg-gray-100")).
Proof.
  unfold Threats.toThreat. cbn [Threats.overallVerdict Threats.threatScore].
  destruct (Threats.first_result item) as [r|].
  - split; [|split].
    + destruct (String.eqb_spec (Threats.overall_verdict r) "") as [_|Hne];
        [discriminate | exact Hne].
    + intros r' H Hne. injection H as <-. split.
      * destruct (String.eqb_spec (Threats.overall_verdict r) "") as [E|_];
          [contradiction | reflexivity].
      * destruct (Z.eqb_spec (Threats.threat_score r) 0) as [E|_];
          [symmetry; exact E | reflexivity].
    + intros H. discriminate H.
  - split; [discriminate | split].
    + intros r H. discriminate H.
    + intros _. split; [reflexivity | split; [reflexivity|]].
      intros Hinh.
      unfold FileUtils.getThreatColor, FileUtils.getThreatBgColor, FileUtils.look.
      cbn. rewrite Hinh. split; reflexivity.
Qed.

Lemma mapped_threat_has_verdict_witness :
  Threats.overallVerdict
    (Threats.toThreat (Threats.mkHashRow "7" "ef" "new.bin" 9 "2025-06-23" 0 (Some []%list)))
  = "unknown"
  /\ FileUtils.getThreatColor FileUtils.Object_prototype
       (Threats.overallVerdict
          (Threats.toThreat
             (Threats.mkHashRow "7" "ef" "new.bin" 9 "2025-06-23" 0 (Some []%list))))
     = FileUtils.Text "text-gray-600".
Proof.
  destruct (mapped_threat_has_verdict FileUtils.Object_prototype
              (Threats.mkHashRow "7" "ef" "new.bin" 9 "2025-06-23" 0 (Some []%list)))
    as (_ & _ & Hnone).
  destruct (Hnone eq_refl) as (Hv & _ & Hgray).
  split; [exact Hv|].
  destruct (Hgray eq_refl) as [Htext _]. exact Htext.
Defined.

(** The table of counts: reading and writing. *)
Lemma get_put_same acc key n : Threats.get (Threats.put acc key n) key = Some n.
Proof.
  induction acc as [|[k m] rest IH]; cbn.
  - rewrite String.eqb_refl. reflexivity.
  - destruct (String.eqb_spec key k) as [->|Hne]; cbn.
    + rewrite String.eqb_refl. reflexivity.
    + destruct (String.eqb_spec key k) as [E|_]; [contradiction | exact IH].
Qed.

Lemma get_put_other acc key n other :
  other <> key -> Threats.get (Threats.put acc key n) other = Threats.get acc other.
Proof.
  intros Hne.
  induction acc as [|[k m] rest IH]; cbn.
  - destruct (String.eqb_spec other key) as [E|_]; [contradiction | reflexivity].
  - destruct (String.eqb_spec key k) as [->|Hk]; cbn.
    + destruct (String.eqb_spec other k) as [E|_]; [contradiction | reflexivity].
    + destruct (String.eqb_spec other k); [reflexivity | exact IH].
Qed.

Lemma total_put acc key n :
  Threats.total (Threats.put acc key n)
  = Threats.total acc - Threats.shown_count acc key + n.
Proof.
  unfold Threats.shown_count.
  induction acc as [|[k m] rest IH]; cbn [Threats.put Threats.get].
  - cbn. lia.
  - destruct (String.eqb_spec key k) as [->|Hk];
      unfold Threats.total in *; cbn [fold_right snd] in *; [lia|].
    rewrite IH. lia.
Qed.

Lemma keys_put acc key n other :
  In other (map fst (Threats.put acc key n))
  <-> other = key \/ In other (map fst acc).
Proof.
  induction acc as [|[k m] rest IH]; cbn.
  - intuition congruence.
  - destruct (String.eqb_spec key k) as [->|Hk]; cbn.
    + intuition congruence.
    + rewrite IH. intuition congruence.
Qed.

Lemma NoDup_put acc key n :
  NoDup (map fst acc) -> NoDup (map fst (Threats.put acc key n)).
Proof.
  induction acc as [|[k m] rest IH]; cbn; intros Hnd.
  - constructor; [intros [] | constructor].
  - inversion Hnd as [|? ? Hnotin Hrest]; subst.
    destruct (String.eqb_spec key k) as [->|Hk]; cbn.
    + constructor; assumption.
    + constructor; [|apply IH; exact Hrest].
      rewrite keys_put. intros [E|Hin]; [congruence | contradiction].
Qed.

Lemma tally_cons v t l :
  Threats.tally v (t :: l)
  = (if String.eqb (Threats.overallVerdict t) v then 1 else 0) + Threats.tally v l.
Proof.
  unfold Threats.tally. cbn [filter].
  destruct (String.eqb (Threats.overallVerdict t) v); cbn [List.length]; lia.
Qed.

Lemma tally_nonneg v l : 0 <= Threats.tally v l.
Proof. unfold Threats.tally. lia. Qed.

(** The [reduce], started from any table of positive counts. *)
Lemma count_all inherited (l : list Threats.Threat) :
  forall table,
    (forall t, In t l -> inherited (Threats.overallVerdict t) = false) ->
    exists table',
      fold_left (Threats.count_one inherited) l (Some table) = Some table'
      /\ (forall v, Threats.shown_count table' v
                    = Threats.shown_count table v + Threats.tally v l)
      /\ Threats.total table' = Threats.total table + Z.of_nat (List.length l)
      /\ (NoDup (map fst table) -> NoDup (map fst table'))
      /\ ((forall k n, Threats.get table k = Some n -> 0 < n) ->
          forall k n, Threats.get table' k = Some n -> 0 < n).
Proof.
  induction l as [|t l IH]; intros table Hinh.
  - exists table. cbn. repeat split; try tauto; try lia.
  - set (v := Threats.overallVerdict t).
    set (next := Threats.put table v (Threats.shown_count table v + 1)).
    assert (Hstep : Threats.count_one inherited (Some table) t = Some next).
    { unfold Threats.count_one, next, Threats.shown_count. fold v.
      destruct (Threats.get table v) as [n|].
      - destruct (Z.eqb_spec n 0) as [->|_]; reflexivity.
      - unfold v. rewrite (Hinh t (or_introl eq_refl)). reflexivity. }
    destruct (IH next (fun t' Ht' => Hinh t' (or_intror Ht')))
      as (table' & Hfold & Hcount & Htotal & Hnd & Hpos).
    exists table'. cbn [fold_left]. rewrite Hstep.
    split; [exact Hfold|]. split; [|split; [|split]].
    + intros v'. rewrite Hcount, tally_cons. fold v.
      unfold next, Threats.shown_count at 1.
      destruct (String.eqb_spec v v') as [<-|Hne].
      * rewrite get_put_same. lia.
      * rewrite get_put_other by congruence.
        fold (Threats.shown_count table v'). lia.
    + rewrite Htotal. unfold next. rewrite total_put.
      cbn [List.length]. lia.
    + intros H. apply Hnd. apply NoDup_put. exact H.
    + intros H. apply Hpos. intros k n. unfold next.
      destruct (String.eqb_spec k v) as [->|Hne].
      * rewrite get_put_same. intros E. injection E as <-.
        unfold Threats.shown_count.
        destruct (Threats.get table v) as [m|] eqn:Hm; [|lia].
        specialize (H v m Hm). lia.
      * rewrite get_put_other by exact Hne. apply H.
Qed.

(** X17.  When no threat's verdict names an inherited member, the cards
    count the threats: the table has one entry per verdict that occurs, each
    with the number of threats of that verdict, no entry for a verdict that
    does not occur, and the counts add up to the number of threats. *)
Theorem verdict_cards_count_threats inherited (st : Threats.State) :
  (forall t, In t (Threats.threats st) ->
             inherited (Threats.overallVerdict t) = false) ->
  exists table,
    Threats.verdictStats inherited st = Some table
    /\ NoDup (map fst table)
    /\ (forall v, Threats.get table v
                  = if Threats.tally v (Threats.threats st) =? 0 then None
                    else Some (Threats.tally v (Threats.threats st)))
    /\ Threats.total table = Z.of_nat (List.length (Threats.threats st)).
Proof.
  intros Hinh.
  destruct (count_all inherited (Threats.threats st) []%list Hinh)
    as (table & Hfold & Hcount & Htotal & Hnd & Hpos).
  exists table. split; [exact Hfold|].
  split; [apply Hnd; constructor|].
  split; [|rewrite Htotal; reflexivity].
  intros v. specialize (Hcount v). unfold Threats.shown_count in Hcount.
  cbn [Threats.get] in Hcount.
  assert (Hp : forall k n, Threats.get table k = Some n -> 0 < n)
    by (apply Hpos; intros k n H; discriminate H).
  destruct (Threats.get table v) as [n|] eqn:Hget.
  - specialize (Hp v n Hget).
    destruct (Z.eqb_spec (Threats.tally v (Threats.threats st)) 0) as [E|_];
      [lia | f_equal; lia].
  - destruct (Z.eqb_spec (Threats.tally v (Threats.threats st)) 0) as [_|Hne];
      [reflexivity | lia].
Qed.

Lemma verdict_cards_count_threats_witness :
  exists table,
    Threats.verdictStats FileUtils.Object_prototype
      (Threats.mkState
         [ Threats.mkThreat "1" "ab" "a.exe" 1 "malicious" 90 "2025-06-23" 2;
           Threats.mkThreat "2" "cd" "b.txt" 2 "safe" 0 "2025-06-22" 1;
           Threats.mkThreat "3" "ef" "c.exe" 3 "malicious" 80 "2025-06-21" 1 ]%list
         false "" "all")
    = Some table
    /\ Threats.get table "malicious" = Some 2
    /\ Threats.total table = 3.
Proof.
  destruct (verdict_cards_count_threats FileUtils.Object_prototype
              (Threats.mkState
                 [ Threats.mkThreat "1" "ab" "a.exe" 1 "malicious" 90 "2025-06-23" 2;
                   Threats.mkThreat "2" "cd" "b.txt" 2 "safe" 0 "2025-06-22" 1;
                   Threats.mkThreat "3" "ef" "c.exe" 3 "malicious" 80 "2025-06-21" 1 ]%list
                 false "" "all"))
    as (table & Hstats & _ & Hget & Htotal).
  - cbn [Threats.threats]. intros t [<-|[<-|[<-|[]]]]; reflexivity.
  - exists table. split; [exact Hstats|].
    split; [rewrite Hget; reflexivity | exact Htotal].
Defined.


(* ================================================================== *)
(** ** More on the fingerprint and on the scan *)
(* ================================================================== *)

Lemma unhex_hexByte (b : byte) (rest : string) :
  unhex (hexByte b ++ rest) = (b :: unhex rest)%list.
Proof. destruct b; reflexivity. Qed.

Lemma string_app_nil_r (s : string) : s ++ "" = s.
Proof. induction s as [|c s IH]; cbn; [reflexivity | now rewrite IH]. Qed.

Lemma hexOfBytes_cons (b : byte) (bs : list byte) :
  hexOfBytes (b :: bs) = hexByte b ++ hexOfBytes bs.
Proof.
  unfold hexOfBytes, join. cbn [map].
  destruct bs as [|b' bs]; cbn [map String.concat].
  - symmetry. apply string_app_nil_r.
  - reflexivity.
Qed.

Lemma unhex_hexOfBytes (bs : list byte) : unhex (hexOfBytes bs) = bs.
Proof.
  induction bs as [|b bs IH]; [reflexivity|].
  rewrite hexOfBytes_cons, unhex_hexByte, IH. reflexivity.
Qed.

(** X18.  The hexadecimal rendering of [calculateSHA256] loses nothing: the
    bytes can be read back from the string, so two different digests never
    share a fingerprint string (this is what the [padStart(2, '0')] is for). *)
Theorem fingerprint_text_injective (digest1 digest2 : list byte) :
  unhex (hexOfBytes digest1) = digest1
  /\ (hexOfBytes digest1 = hexOfBytes digest2 -> digest1 = digest2).
Proof.
  split; [apply unhex_hexOfBytes|].
  intros H. rewrite <- (unhex_hexOfBytes digest1), <- (unhex_hexOfBytes digest2), H.
  reflexivity.
Qed.

Lemma fingerprint_text_injective_witness :
  hexOfBytes [x01; x23]%list = hexOfBytes [x01; x23]%list
  /\ [x01; x23]%list = [x01; x23]%list.
Proof.
  split; [reflexivity|].
  apply (proj2 (fingerprint_text_injective [x01; x23]%list [x01; x23]%list)).
  reflexivity.
Defined.

(** X19.  All pacing comes first.  Every scan reads the file's text exactly
    once and waits out the six pacing delays, 5500 ms in all, before the
    configuration is even looked at: a scan that fails, for whatever reason,
    has waited exactly that long, and a scan that completes 500 ms more.  When
    a request is sent, the six pacing events, the text read and the 5500 ms
    all precede it. *)
Theorem pacing_precedes_the_request env fu w :
  let run := App.performScan env fu w in
  text_reads (effects run) = 1%nat
  /\ (outcome (App.performScan_try env fu w) = inr tt -> waited (effects run) = 6000)
  /\ (forall thrown, outcome (App.performScan_try env fu w) = inl thrown ->
        waited (effects run) = 5500)
  /\ progress_events (until_fetch (effects run))
     = (if config_ok env then pacing_events else progress_events (effects run))
  /\ (config_ok env = true ->
      waited (until_fetch (effects run)) = 5500
      /\ text_reads (until_fetch (effects run)) = 1%nat).
Proof.
  destruct w as [a c p r s h u].
  unfold App.performScan, try_catch.
  remember (App.performScan_try env fu (mkWorld a c p r s h u)) as body eqn:Hbody.
  scan_cases env fu Hbody; subst body; crunch;
    cbn [text_reads waited until_fetch progress_events];
    (split; [reflexivity|]);
    (split; [let H := fresh in intros H; first [reflexivity | discriminate H]|]);
    (split; [let H := fresh in intros ? H; first [reflexivity | discriminate H]|]);
    (split; [reflexivity|]);
    let H := fresh in intros H; first [discriminate H | split; reflexivity].
Qed.

Lemma pacing_precedes_the_request_witness :
  config_ok Sample.unset = false
  /\ waited (effects (App.performScan Sample.unset Sample.hello_upload initial_world))
     = 5500.
Proof.
  split; [reflexivity|].
  destruct (pacing_precedes_the_request Sample.unset Sample.hello_upload initial_world)
    as (_ & _ & Hfail & _).
  apply (Hfail (ErrorObj App.config_error_text)).
  vm_compute. reflexivity.
Defined.

(** What else the [try] block can throw. *)
Section MoreTryOutcomes.

Variables (env : Env) (fu : FileUpload) (w : World).

Ltac enter :=
  unfold the_request, sampled in *; destruct w as [a c p r s h u];
  crunch; rewrite config_guard;
  destruct (readAsText (file fu)) as [?|?]; crunch.

Lemma try_body_rejects resp e :
  config_ok env = true -> fetch env (the_request env fu) = inr resp ->
  ok resp = true -> json resp = inl e ->
  outcome (App.performScan_try env fu w) = inl e.
Proof.
  intros Hc Hf Hok Hj.
  enter; rewrite Hc; cbn [negb]; crunch; rewrite Hf; crunch; rewrite Hok;
    cbn [negb]; crunch; rewrite Hj; reflexivity.
Qed.

Lemma try_body_unreadable resp data e :
  config_ok env = true -> fetch env (the_request env fu) = inr resp ->
  ok resp = true -> json resp = inr data ->
  get_prop (null_read_text env) data "success" = inl e ->
  outcome (App.performScan_try env fu w) = inl e.
Proof.
  intros Hc Hf Hok Hj Hs.
  enter; rewrite Hc; cbn [negb]; crunch; rewrite Hf; crunch; rewrite Hok;
    cbn [negb]; crunch; rewrite Hj; crunch; rewrite Hs; reflexivity.
Qed.

End MoreTryOutcomes.

(** X21.  A scan completes exactly on an object whose [success] is truthy,
    and the record takes [scanId] and [result] from that object as they are,
    [undefined] when the object lacks them: nothing about the answer is
    checked beyond [success]. *)
Theorem record_passes_answer_through env fu w resp fields :
  config_ok env = true ->
  fetch env (the_request env fu) = inr resp -> ok resp = true ->
  json resp = inr (JObj fields) ->
  truthy (assoc "success" fields) = true ->
  let run := App.performScan env fu w in
  scanResults (world run)
  = Some (Scan.mkCompleteScanData (assoc "scanId" fields) (name (file fu))
            (size (file fu)) (sha256Hash fu) (Date_toISOString env)
            (assoc "result" fields))
  /\ appState (world run) = results
  /\ console (effects run)
     = match readAsText (file fu) with
       | inl _ => ["Could not read file as text, continuing without content analysis"]
       | inr _ => []
       end%list.
Proof.
  intros Hc Hf Hok Hj Ht run. subst run.
  destruct w as [a c p r s h u].
  unfold App.performScan, try_catch, the_request, sampled in *.
  remember (App.performScan_try env fu (mkWorld a c p r s h u)) as body eqn:Hbody.
  crunch_in Hbody. rewrite config_guard, Hc in Hbody. cbn [negb] in Hbody.
  destruct (readAsText (file fu)) as [e|text]; crunch_in Hbody;
    rewrite Hf in Hbody; crunch_in Hbody; rewrite Hok in Hbody;
    cbn [negb] in Hbody; crunch_in Hbody; rewrite Hj in Hbody;
    cbn [get_prop] in Hbody; crunch_in Hbody; rewrite Ht in Hbody;
    cbn [negb] in Hbody; crunch_in Hbody;
    subst body; crunch; cbn [console]; repeat split.
Qed.

Lemma record_passes_answer_through_witness :
  scanResults (world
    (App.performScan (Sample.envelope [("success", JNum 1)]%list) Sample.hello_upload
       initial_world))
  = Some (Scan.mkCompleteScanData JUndefined "hello.txt" 12
            "7509e5bda0c762d2bac7f90d758b5b2263fa01ccbc542ab5e3df163be08e6ca9"
            "2025-06-23T14:33:36.000Z" JUndefined).
Proof.
  destruct (record_passes_answer_through (Sample.envelope [("success", JNum 1)]%list)
              Sample.hello_upload initial_world
              (mkResponse true "OK" (inr (JObj [("success", JNum 1)]%list)))
              [("success", JNum 1)]%list
              eq_refl eq_refl eq_refl eq_refl eq_refl) as [Hrec _].
  exact Hrec.
Defined.

(* ================================================================== *)
(** ** The page while scans are pending *)
(* ================================================================== *)

Ltac crunch_live :=
  cbv beta iota zeta delta
    [Live.uninterrupted Live.to_the_end Live.handleFileSelect Live.performScan
     Live.stretch
     submit UploadGate.handleFileSelect App.handleFileSelect
     App.performScan App.performScan_try App.performScan_catch
     calculateSHA256 readFileAsText try_catch try_finally detached
     bind ret throw await pause emit setScanProgress setScanResults
     setAppState setCurrentFile setSelectedFile setIsHashing setError
     appState currentFile scanProgress scanResults
     selectedFile isHashing uploadError outcome world effects app fst snd
     new_Error ToString failed_event shown_text complete_event].

(** Resumed to its end with nothing in between, the scan cut at its [await]s
    does what [App.handleFileSelect] does in one piece. *)
Lemma uninterrupted_is_atomic env fu w :
  Live.uninterrupted (Live.handleFileSelect env fu) w
  = (world (App.handleFileSelect env fu w), effects (App.handleFileSelect env fu w)).
Proof.
  destruct w as [a c p r s h u].
  crunch_live. rewrite !config_guard.
  destruct (readAsText (file fu)) as [e|text]; crunch_live;
  (destruct (config_ok env); cbn [negb]; crunch_live; [|reflexivity]);
  (match goal with |- context [fetch env ?q] =>
     destruct (fetch env q) as [e1|resp] end; crunch_live; [reflexivity|]);
  (destruct (ok resp); cbn [negb]; crunch_live; [|reflexivity]);
  (destruct (json resp) as [e2|data]; crunch_live; [reflexivity|]);
  (destruct (get_prop (null_read_text env) data "success") as [e3|flag] eqn:Hs;
     crunch_live; [reflexivity|]);
  (destruct (truthy flag); cbn [negb]; crunch_live;
     [ destruct (get_prop_twice _ _ _ "scanId" _ Hs) as [sid Hsid];
       destruct (get_prop_twice _ _ _ "result" _ Hs) as [res Hres];
       rewrite !Hsid; crunch_live; rewrite !Hres; crunch_live; reflexivity
     | destruct (get_prop_twice _ _ _ "error" _ Hs) as [err Herr];
       rewrite !Herr; crunch_live; reflexivity ]).
Qed.

(** X1.  When a selected file's scan is resumed to its end with no other
    request served in between, the page is left exactly as the one-piece run
    of [App.handleFileSelect] leaves it, and it shows either the results of
    this very file (its name, size and fingerprint) or the progress view of
    this file stopped at the failed event. *)
Theorem uninterrupted_scan_ends_on_its_own_screen env fu w :
  let w' := fst (Live.uninterrupted (Live.handleFileSelect env fu) w) in
  Live.uninterrupted (Live.handleFileSelect env fu) w
  = (world (App.handleFileSelect env fu w), effects (App.handleFileSelect env fu w))
  /\ ((exists r, Shell.main w' = Shell.ResultsScreen r /\ Shell.record_of fu r)
      \/ (exists thrown,
            Shell.main w'
            = Shell.ProgressScreen (failed_event thrown) (name (file fu))
                                   (sha256Hash fu))).
Proof.
  intros w'. subst w'. rewrite uninterrupted_is_atomic.
  split; [reflexivity|]. cbn [fst].
  rewrite app_handleFileSelect_run.
  match goal with |- context [App.performScan env fu ?w1] =>
    destruct (performScan_run env fu w1)
      as (_ & _ & _ & _ & Hcur &
          [(sid & res & _ & _ & _ & Hrec & Happ) | (t & _ & _ & Hp & _ & Happ)])
  end; cbn [currentFile appState] in Hcur, Happ; unfold Shell.main.
  - left. rewrite Happ, Hrec. eexists. split; [reflexivity|].
    repeat split.
  - right. exists t. rewrite Happ, Hcur, Hp. reflexivity.
Qed.

Lemma sound_more known known' w :
  incl known known' -> Live.sound known w -> Live.sound known' w.
Proof.
  intros Hincl (Hres & Hscan & Hrec). repeat split; try assumption.
  intros r Hr. destruct (Hrec r Hr) as (fu & Hin & Hof).
  exists fu. split; [apply Hincl; exact Hin | exact Hof].
Qed.

(** The [catch] block only reports. *)
Lemma stretch_harmless fu {A} (code : M A) (rest : A -> Live.Task) :
  (forall known w, In fu known -> Live.sound known w ->
                   Live.sound known (world (code w))) ->
  (forall a, Live.harmless fu (rest a)) ->
  (forall known w, In fu known -> Live.sound known w ->
                   Live.sound known (fst (fst (Live.stretch code rest w))))
  /\ (forall w, Live.harmless fu (snd (Live.stretch code rest w))).
Proof.
  intros Hcode Hrest. split.
  - intros known w Hin Hs. specialize (Hcode known w Hin Hs).
    unfold Live.stretch. destruct (code w) as [[e|a] [a' c' p' r' s' h' u'] d];
      cbn [world] in Hcode; crunch; exact Hcode.
  - intros w. unfold Live.stretch.
    destruct (code w) as [[e|a] [a' c' p' r' s' h' u'] d]; crunch;
      [constructor | apply Hrest].
Qed.

(** Case analysis on a scrutinee that is not itself a case analysis. *)
Ltac innermost_case :=
  match goal with
  | |- context [match ?x with _ => _ end] =>
      lazymatch x with
      | context [match _ with _ => _ end] => fail
      | _ => destruct x
      end
  end.

Ltac quiet_code :=
  let known := fresh "known" in
  let w := fresh "w" in
  let Hin := fresh "Hin" in
  let Hs := fresh "Hs" in
  intros known w Hin Hs; destruct w as [? ? ? ? ? ? ?]; crunch;
  repeat (innermost_case; crunch);
  exact Hs.

Lemma awaiting_stretch fu {A} (code : M A) (rest : A -> Live.Task) :
  (forall known w, In fu known -> Live.sound known w ->
                   Live.sound known (world (code w))) ->
  (forall a, Live.harmless fu (rest a)) ->
  Live.harmless fu (Live.Awaiting (Live.stretch code rest)).
Proof.
  intros Hcode Hrest.
  destruct (stretch_harmless fu code rest Hcode Hrest) as [Hnow Hlater].
  constructor; assumption.
Qed.

(** A scan of [fu], started or resumed at any of its [await]s, keeps the
    state sound. *)
Lemma performScan_harmless env fu :
  (forall known w, In fu known -> Live.sound known w ->
                   Live.sound known (fst (fst (Live.performScan env fu w))))
  /\ (forall w, Live.harmless fu (snd (Live.performScan env fu w))).
Proof.
  unfold Live.performScan.
  apply stretch_harmless; [quiet_code | intros _].
  do 9 (apply awaiting_stretch; [quiet_code | intros ?]).
  apply awaiting_stretch; [|intros ?; constructor].
  intros known w Hin Hs. destruct w as [? ? ? ? ? ? ?]. crunch.
  repeat (innermost_case; crunch); try exact Hs.
  destruct Hs as (_ & _ & Hrec).
  repeat split.
  - intros _. eexists. reflexivity.
  - intros H. discriminate H.
  - intros r' H. injection H as <-. exists fu. split; [exact Hin|].
    repeat split.
Qed.

Lemma steady_more known known' page :
  incl known known' -> Live.steady known page -> Live.steady known' page.
Proof.
  intros Hincl [Hs Hp]. split; [apply (sound_more known); assumption|].
  eapply Forall_impl; [|exact Hp].
  intros task (fu & Hin & Hh). exists fu. split; [apply Hincl; exact Hin | exact Hh].
Qed.

Lemma replace_task_steady (P : Live.Task -> Prop) task :
  P task -> forall l n, Forall P l -> Forall P (Live.replace_task n task l).
Proof.
  intros Ht l. induction l as [|t l IH]; intros n Hl; [destruct n; constructor|].
  inversion Hl as [|? ? Hhead Htail]; subst.
  destruct n as [|n]; cbn; constructor; auto.
Qed.

(** Serving one request keeps the page steady; a selection adds its upload to
    the known ones. *)
Lemma serve_steady env ev known page :
  Live.steady known page ->
  Live.steady (known ++ Live.selected [ev]) (Live.serve env ev page).
Proof.
  intros Hst.
  assert (Hincl : incl known (known ++ Live.selected [ev]))
    by (apply incl_appl, incl_refl).
  apply (steady_more _ _ _ Hincl) in Hst. destruct Hst as [Hs Hp].
  destruct page as [w tasks]. cbn [Live.state Live.suspended] in *.
  destruct ev as [fu | | | n]; cbn [Live.serve Live.selected Live.state Live.suspended] in *.
  - assert (Hin : In fu (known ++ [fu])) by (apply in_or_app; right; left; reflexivity).
    destruct (performScan_harmless env fu) as [Hnow Hlater].
    unfold Live.handleFileSelect.
    destruct w as [a c p r s h u].
    unfold bind, setCurrentFile, setAppState.
    cbn [appState currentFile scanProgress scanResults selectedFile isHashing
         uploadError].
    match goal with |- context [Live.performScan env fu ?w1] =>
      specialize (Hnow (known ++ [fu])%list w1 Hin);
      specialize (Hlater w1);
      destruct (Live.performScan env fu w1) as [[w2 d2] t2]
    end.
    cbn [fst snd] in Hnow, Hlater. split; cbn [Live.state Live.suspended].
    + apply Hnow. destruct Hs as (_ & _ & Hrec).
      repeat split.
      * intros H. discriminate H.
      * intros _. eexists. reflexivity.
      * exact Hrec.
    + apply Forall_app. split; [exact Hp|].
      constructor; [|constructor]. exists fu. split; assumption.
  - destruct w as [a c p r s h u]. split; [|exact Hp].
    cbn. repeat split; intros; discriminate.
  - destruct w as [a c p r s h u]. split; [|exact Hp].
    destruct Hs as (_ & _ & Hrec).
    cbn. repeat split; try (intros; discriminate). exact Hrec.
  - destruct (nth_error tasks n) as [[|resume]|] eqn:Hn;
      try (split; assumption).
    pose proof Hp as Hall. rewrite Forall_forall in Hall.
    destruct (Hall _ (nth_error_In _ _ Hn)) as (fu & Hin & Hh).
    inversion Hh as [|? Hnow Hlater]; subst.
    specialize (Hnow _ w Hin Hs). specialize (Hlater w).
    destruct (resume w) as [[w2 d2] t2]. cbn [fst snd] in Hnow, Hlater.
    split; cbn [Live.state Live.suspended]; [exact Hnow|].
    apply replace_task_steady; [|exact Hp].
    exists fu. split; assumption.
Qed.

Lemma selected_app evs evs' :
  Live.selected (evs ++ evs') = (Live.selected evs ++ Live.selected evs')%list.
Proof.
  induction evs as [|[fu| | |n] evs IH]; cbn; rewrite ?IH; reflexivity.
Qed.

Lemma browse_steady env events :
  forall known page,
    Live.steady known page ->
    Live.steady (known ++ Live.selected events) (Live.browse env events page).
Proof.
  induction events as [|ev events IH]; intros known page Hst.
  - cbn. rewrite app_nil_r. exact Hst.
  - cbn [Live.browse].
    change (ev :: events)%list with ([ev] ++ events)%list.
    rewrite selected_app, app_assoc.
    apply IH. apply serve_steady. exact Hst.
Qed.

(** X2.  Whatever the page serves, in whatever order (files handed over, "new
    scan" and logo clicks, and pending scans resumed at any of their [await]s,
    several scans at once included), it is never empty, and a record it shows
    is the record of a file that was selected, though not always of the one
    selected last. *)
Theorem page_never_empty env (events : list Live.Event) :
  let w := Live.state (Live.browse env events Live.opened) in
  Shell.main w <> Shell.NoScreen
  /\ (forall r, Shell.main w = Shell.ResultsScreen r ->
        exists fu, In fu (Live.selected events) /\ Shell.record_of fu r).
Proof.
  intros w. subst w.
  assert (Hopen : Live.steady []%list Live.opened).
  { split; [|constructor]. cbn. repeat split; intros; discriminate. }
  destruct (browse_steady env events _ _ Hopen) as [(Hres & Hscan & Hrec) _].
  cbn [app] in *. unfold Shell.main.
  destruct (appState (Live.state (Live.browse env events Live.opened))) eqn:Ha.
  - split; [discriminate | intros r H; discriminate H].
  - destruct (Hscan eq_refl) as [fu Hfu]. rewrite Hfu.
    split; [discriminate | intros r H; discriminate H].
  - destruct (Hres eq_refl) as [r Hr]. rewrite Hr.
    split; [discriminate|].
    intros r' H. injection H as <-. apply Hrec. exact Hr.
Qed.

(** The record shown need not be the current file's: a scan still pending
    when the logo is clicked and another file is selected takes the page when
    it completes. *)
Lemma late_scan_takes_the_page :
  let w := Live.state
             (Live.browse Sample.served
                ([ Live.Selected Sample.hello_upload; Live.BackToScan;
                   Live.Selected Sample.binary_upload ]
                 ++ repeat (Live.Resumed 0) 10)%list
                Live.opened) in
  currentFile w = Some Sample.binary_upload
  /\ exists r, Shell.main w = Shell.ResultsScreen r
               /\ Scan.fileName r = "hello.txt".
Proof.
  vm_compute. split; [reflexivity|]. eexists. split; reflexivity.
Qed.

(** A click on the logo while a scan waits shows the upload view, and the
    scan's failure, when it comes, does not bring the progress view back. *)
Lemma logo_during_a_failing_scan :
  Shell.main
    (Live.state
       (Live.browse Sample.http500
          ([ Live.Selected Sample.hello_upload; Live.BackToScan ]
           ++ repeat (Live.Resumed 0) 10)%list
          Live.opened))
  = Shell.UploadScreen.
Proof. vm_compute. reflexivity. Qed.

(* ================================================================== *)
(** ** The rows as drawn, and the causes of failure *)
(* ================================================================== *)

(** X5.  Over a scan the number of rows drawn green goes 0, 1, 2, 3, 4, 5
    through the pacing events; the [complete] event turns all seven green and
    the failed event none.  The check-mark icon is drawn once more than that
    at every event but [complete], because the last row's own icon is the
    check mark: 1, 2, 3, 4, 5, 6, then 7 on completion and 1 on failure. *)
Theorem drawn_rows_over_a_scan env fu w :
  let evs := progress_events (effects (App.performScan env fu w)) in
  (outcome (App.performScan_try env fu w) = inr tt ->
   map green_rows evs = [0; 1; 2; 3; 4; 5; 7]%nat%list
   /\ map check_marks evs = [1; 2; 3; 4; 5; 6; 7]%nat%list)
  /\ (forall thrown,
        outcome (App.performScan_try env fu w) = inl thrown ->
        map green_rows evs = [0; 1; 2; 3; 4; 5; 0]%nat%list
        /\ map check_marks evs = [1; 2; 3; 4; 5; 6; 1]%nat%list).
Proof.
  intros evs. subst evs.
  destruct (performScan_run env fu w)
    as (_ & _ & _ & _ & _ &
        [(sid & res & Ho & Hev & _) | (t & Ho & Hev & _)]);
    rewrite Hev, Ho; split; try (intros; discriminate);
    intros; vm_compute; split; reflexivity.
Qed.

Lemma drawn_rows_over_a_scan_witness :
  map check_marks
      (progress_events (effects
         (App.performScan Sample.http500 Sample.hello_upload initial_world)))
  = [1; 2; 3; 4; 5; 6; 1]%nat%list.
Proof.
  destruct (drawn_rows_over_a_scan Sample.http500 Sample.hello_upload initial_world)
    as [_ Hfail].
  apply (Hfail (ErrorObj "Scan failed: Internal Server Error")).
  vm_compute. reflexivity.
Defined.

(** X20.  A scan fails for one of six reasons and no other: the
    configuration guard; [fetch] rejecting; a response without a success
    status; the body failing to parse; a body that is [null], which cannot be
    asked for [success]; or an envelope whose [success] is falsy.  The value
    thrown is the one listed; for the last reason it is
    [new Error(error || 'Scan failed')], stated for the [error] values that
    convert to text as modelled here (texts, booleans, [null], integers a
    double holds exactly, objects without a [toString] of their own, arrays of
    these). *)
Theorem failure_has_one_of_six_causes env fu w thrown :
  outcome (App.performScan_try env fu w) = inl thrown ->
  (config_ok env = false /\ thrown = ErrorObj App.config_error_text)
  \/ (config_ok env = true /\
      (fetch env (the_request env fu) = inl thrown
       \/ exists resp,
            fetch env (the_request env fu) = inr resp
            /\ ((ok resp = false
                 /\ thrown = ErrorObj ("Scan failed: " ++ statusText resp))
                \/ (ok resp = true /\
                    (json resp = inl thrown
                     \/ exists data,
                          json resp = inr data
                          /\ (((data = JNull \/ data = JUndefined)
                               /\ thrown = ErrorObj (null_read_text env))
                              \/ exists flag err,
                                   get_prop (null_read_text env) data "success" = inr flag
                                   /\ truthy flag = false
                                   /\ get_prop (null_read_text env) data "error" = inr err
                                   /\ (printable (or_else err (JStr "Scan failed")) = true ->
                                       thrown
                                       = new_Error (or_else err (JStr "Scan failed"))))))))).
Proof.
  intros Hthrown.
  destruct (config_ok env) eqn:Hc.
  - right. split; [reflexivity|].
    destruct (fetch env (the_request env fu)) as [e|resp] eqn:Hf.
    + left. rewrite (try_fetch_rejects env fu w e Hc Hf) in Hthrown.
      injection Hthrown as ->. reflexivity.
    + right. exists resp. split; [reflexivity|].
      destruct (ok resp) eqn:Hok.
      * right. split; [reflexivity|].
        destruct (json resp) as [e|data] eqn:Hj.
        -- left. rewrite (try_body_rejects env fu w resp e Hc Hf Hok Hj) in Hthrown.
           injection Hthrown as ->. reflexivity.
        -- right. exists data. split; [reflexivity|].
           destruct (get_prop (null_read_text env) data "success") as [e|flag] eqn:Hs.
           ++ left.
              rewrite (try_body_unreadable env fu w resp data e Hc Hf Hok Hj Hs)
                in Hthrown.
              injection Hthrown as <-.
              destruct data; cbn in Hs; try discriminate Hs;
                injection Hs as <-; split; auto.
           ++ right. destruct (truthy flag) eqn:Ht.
              ** rewrite (try_accepted env fu w resp data flag Hc Hf Hok Hj Hs Ht)
                   in Hthrown.
                 discriminate Hthrown.
              ** destruct (get_prop_twice _ _ _ "error" _ Hs) as [err Herr].
                 exists flag, err.
                 rewrite (try_envelope_refused env fu w resp data flag err
                            Hc Hf Hok Hj Hs Ht Herr) in Hthrown.
                 injection Hthrown as <-.
                 split; [reflexivity|]. split; [exact Ht|].
                 split; [exact Herr|]. intros _. reflexivity.
      * left. split; [reflexivity|].
        rewrite (try_bad_status env fu w resp Hc Hf Hok) in Hthrown.
        injection Hthrown as <-. reflexivity.
  - left. split; [reflexivity|].
    rewrite (try_unconfigured env fu w Hc) in Hthrown.
    injection Hthrown as <-. reflexivity.
Qed.

Lemma failure_has_one_of_six_causes_witness :
  outcome (App.performScan_try (Sample.envelope []%list) Sample.hello_upload initial_world)
  = inl (ErrorObj "Scan failed")
  /\ exists resp,
       fetch (Sample.envelope []%list)
             (the_request (Sample.envelope []%list) Sample.hello_upload)
       = inr resp
       /\ ok resp = true.
Proof.
  assert (Hthrown :
    outcome (App.performScan_try (Sample.envelope []%list) Sample.hello_upload
               initial_world)
    = inl (ErrorObj "Scan failed")) by (vm_compute; reflexivity).
  split; [exact Hthrown|].
  destruct (failure_has_one_of_six_causes (Sample.envelope []%list) Sample.hello_upload
              initial_world (ErrorObj "Scan failed") Hthrown)
    as [[H _] | [_ [H | (resp & Hf & [[H _] | [Hok _]])]]].
  - vm_compute in H. discriminate H.
  - vm_compute in H. discriminate H.
  - injection Hf as <-. vm_compute in H. discriminate H.
  - exists resp. split; [exact Hf | exact Hok].
Defined.
